(** * Anime Folder Wizard: a shallow embedding of [AnimeFolderWizard.py]

    The program walks over the sub-folders of a directory, asks the AniList
    service for candidate titles for each folder name, and renames the folder
    to the title picked by the user.

    Python [str] values are modelled as lists of Unicode code points, the
    three dictionaries of the application object as finite maps, and the
    methods of the [AnimeFolderWizard] class as computations in a small
    state monad that can raise and that records the observable effects
    (dialogs, prints, HTTP requests, renames, thread starts). *)

From Stdlib Require Import String Ascii DecimalString.
From Equations Require Import Equations.
From stdpp Require Import base decidable option list gmap sorting.

Open Scope Z_scope.
Open Scope list_scope.

(** ** Python strings *)

(** A Python [str] is a sequence of code points. *)
Abbreviation pystr := (list N).

(** Reading an ASCII literal as a [pystr]. *)
Definition py (s : string) : pystr :=
  (λ a : ascii, N_of_ascii a) <$> list_ascii_of_string s.

(** [str.isspace] on one code point: the characters [str.strip()] removes
    when called without argument. *)
Definition is_space (c : N) : bool :=
  ((9 <=? c) && (c <=? 13) || (28 <=? c) && (c <=? 32)
   || (c =? 133) || (c =? 160) || (c =? 5760)
   || (8192 <=? c) && (c <=? 8202)
   || (c =? 8232) || (c =? 8233) || (c =? 8239) || (c =? 8287)
   || (c =? 12288))%N.

Fixpoint lstrip (s : pystr) : pystr :=
  match s with
  | [] => []
  | c :: t => if is_space c then lstrip t else s
  end.

Fixpoint rstrip (s : pystr) : pystr :=
  match s with
  | [] => []
  | c :: t =>
      match rstrip t with
      | [] => if is_space c then [] else [c]
      | r => c :: r
      end
  end.

(** [s.strip()] *)
Definition strip (s : pystr) : pystr := rstrip (lstrip s).

(** [name.replace(char, '')] for a one-character [char]. *)
Definition replace_char_empty (char : N) (name : pystr) : pystr :=
  filter (λ c, c ≠ char) name.

(** Truth value of a string: [bool(s)]. *)
Definition str_truthy (s : pystr) : bool :=
  match s with [] => false | _ => true end.

(** [str(n)] for an integer. *)
Definition str_of_int (n : Z) : pystr := py (NilZero.string_of_int (Z.to_int n)).

(** ** [sanitize_filename] *)

(** The nine characters of the raw literal bound to [invalid] in the source,
    in its order: less-than, greater-than, colon, double quote, slash,
    backslash, vertical bar, question mark, asterisk. *)
Definition invalid : pystr :=
  [60; 62; 58; 34; 47; 92; 124; 63; 42]%N.

(** [[
def sanitize_filename(name):
    invalid = (the nine characters above)
    for char in invalid:
        name = name.replace(char, '')
    return name.strip()
]] *)
Definition sanitize_filename (name : pystr) : pystr :=
  strip (foldl (λ name char, replace_char_empty char name) name invalid).

(** ** The bracket pattern of [fetch_candidates]

    [re.sub(r'[\(\[].*?[\)\]]', '', query)]: an opening parenthesis or square
    bracket, a lazy run of characters other than line feed, then a closing
    parenthesis or square bracket.  The kind of the closing character need
    not agree with the kind of the opening one. *)

(** The class [[\(\[]]. *)
Definition is_open (c : N) : bool := ((c =? 40) || (c =? 91))%N.

(** The class [[\)\]]]. *)
Definition is_close (c : N) : bool := ((c =? 41) || (c =? 93))%N.

(** What [.] matches without the DOTALL flag. *)
Definition is_dot (c : N) : bool := negb (c =? 10)%N.

(** The tail [.*?[\)\]]] of the pattern, tried at the head of [s] in the
    order of the backtracking matcher: first the closing class; if that fails
    one more [.], and again.  The result is the text left after the match. *)
Fixpoint lazy_close (s : pystr) : option pystr :=
  match s with
  | [] => None
  | c :: t =>
      if is_close c then Some t
      else if is_dot c then lazy_close t
      else None
  end.

(** The whole pattern, tried at the head of [s]. *)
Definition match_span (s : pystr) : option pystr :=
  match s with
  | [] => None
  | c :: t => if is_open c then lazy_close t else None
  end.

(** Naming the equation of a case analysis, for the termination proof. *)
Definition inspect {A} (a : A) : {b | a = b} := exist _ a eq_refl.

(** [re.sub(pattern, '', s)]: scan from the left; where the pattern matches,
    drop the match and go on after it; elsewhere keep the character. *)
Equations? re_sub_spans (s : pystr) : pystr by wf (length s) lt :=
  re_sub_spans [] := [];
  re_sub_spans (c :: t) with inspect (match_span (c :: t)) := {
    | exist _ (Some rest) Hm := re_sub_spans rest;
    | exist _ None _ := c :: re_sub_spans t }.
Proof.
  - assert (Hlen : ∀ u r, lazy_close u = Some r → (length r < length u)%nat).
    { induction u as [|a u IH]; simpl; intros r; [done|].
      destruct (is_close a); [intros [= <-]; lia|].
      destruct (is_dot a); [|done].
      intros Hr. apply IH in Hr. lia. }
    simpl in Hm. destruct (is_open c); [|done].
    apply Hlen in Hm. simpl. lia.
  - simpl. lia.
Qed.

(** The query of [fetch_candidates]:
[[
        override_query = self.override_search_entry.get().strip()
        if override_query:
            query = override_query
        else:
            query = folder_name
            if disregard:
                query = re.sub(r'[\(\[].*?[\)\]]', '', query).strip()
]] *)
Definition build_query (folder_name : pystr) (disregard : bool)
    (override_entry : pystr) : pystr :=
  let override_query := strip override_entry in
  if str_truthy override_query then override_query
  else if disregard then strip (re_sub_spans folder_name)
  else folder_name.

(** A span said by its parts rather than by the matcher, for comparison
    with [re_sub_spans]: [s] starts with an opening character, a body
    without closing character and without line feed, and a closing
    character, and [rest] is what follows. *)
Definition span_at (s body rest : pystr) : Prop :=
  ∃ o c, s = o :: body ++ c :: rest ∧ is_open o = true ∧ is_close c = true ∧
         Forall (λ x, is_close x = false ∧ is_dot x = true) body.

(** [spans_removed s out]: [out] is [s] with every such span removed, the
    spans being taken from left to right. *)
Inductive spans_removed : pystr → pystr → Prop :=
| spans_removed_nil : spans_removed [] []
| spans_removed_span s body rest out :
    span_at s body rest → spans_removed rest out → spans_removed s out
| spans_removed_keep x t out :
    (∀ body rest, ¬ span_at (x :: t) body rest) →
    spans_removed t out → spans_removed (x :: t) (x :: out).

(** ** Candidates *)

(** One media record of the answer, as far as the program reads it:
    [anime['title']['english']], [anime['title']['romaji']] and
    [anime['startDate'].get('year')].  The English title and the year can
    be [None].  The program never reads the id, and it reads the romaji
    title only when the English title is [None] or empty. *)
Record Candidate := {
  media_id : Z;
  english : option pystr;
  romaji : pystr;
  year : option Z
}.

#[global] Instance Candidate_eq_dec : EqDecision Candidate.
Proof. solve_decision. Defined.

(** [anime['title']['english'] or anime['title']['romaji']]: the English
    title when it is neither [None] nor empty. *)
Definition title_of (anime : Candidate) : pystr :=
  match english anime with
  | Some e => if str_truthy e then e else romaji anime
  | None => romaji anime
  end.

(** [f'{title} ({year})' if year else title], where [year] is
    [anime['startDate'].get('year')]: the test fails for [None] and for 0. *)
Definition display_name (anime : Candidate) : pystr :=
  let title := title_of anime in
  match year anime with
  | Some y => if y =? 0 then title
              else title ++ py " (" ++ str_of_int y ++ py ")"
  | None => title
  end.

(** The sort key [anime['startDate'].get('year') or 0]. *)
Definition year_key (anime : Candidate) : Z :=
  match year anime with
  | Some y => if y =? 0 then 0 else y
  | None => 0
  end.

(** [sorted(l, key=key, reverse=True)].  Python's sort is stable, and with
    [reverse=True] elements with equal keys still keep their original order:
    each element is put in front of the first later element whose key is not
    greater than its own. *)
Section Sorted.
Context {A : Type} (key : A → Z).

Fixpoint insert_desc (x : A) (l : list A) : list A :=
  match l with
  | [] => [x]
  | y :: t => if key x <? key y then y :: insert_desc x t else x :: l
  end.

Definition sorted_reverse (l : list A) : list A := foldr insert_desc [] l.

(** Descending order of the keys. *)
Definition key_ge (a b : A) : Prop := key b ≤ key a.
End Sorted.

(** The post-processing of [fetch_candidates]:
[[
        if candidates:
            candidates = sorted(candidates, key=lambda anime: anime['startDate'].get('year') or 0, reverse=True)
            candidates = candidates[:5]
]] *)
Definition top_candidates (candidates : list Candidate) : list Candidate :=
  match candidates with
  | [] => candidates
  | _ => take 5 (sorted_reverse year_key candidates)
  end.

(** ** JSON values and the answer of the service *)

#[local] Set Warnings "-register-all".

Inductive json :=
| JNull
| JBool (b : bool)
| JInt (n : Z)
| JStr (s : pystr)
| JArr (items : list json)
| JObj (fields : list (pystr * json)).

(** Lookup in a decoded object; a key written twice keeps its last value. *)
Fixpoint dict_lookup (key : pystr) (fields : list (pystr * json)) : option json :=
  match fields with
  | [] => None
  | (k, v) :: t =>
      match dict_lookup key t with
      | Some v' => Some v'
      | None => if decide (k = key) then Some v else None
      end
  end.

(** What one [requests.post] call can end in: the call raises; or a response
    arrives, with a status that [raise_for_status] accepts or not, and with a
    body that [response.json()] decodes or not. *)
Inductive http_outcome :=
| TransportError
| HttpResponse (status_ok : bool) (body : option json).

(** ** Effects *)

(** The exceptions of the model; all are subclasses of [Exception]. *)
Inductive exn :=
| IndexError | KeyError | TypeError | AttributeError | OSError
| RequestException | HTTPError | JSONDecodeError.

(** The texts given to [print]. *)
Inductive message :=
| MsgErrorQuerying (query : pystr)
| MsgSearching (query : pystr)
| MsgRenamed (folder_name new_name : pystr)
| MsgSkipping (folder_name : pystr)
| MsgNoCandidateSelected (folder : pystr)
| MsgWillBeRenamed (folder new_name : pystr).

(** The message boxes: [showinfo('No Folders', ...)] and the three
    [showerror] calls of [candidate_selected]. *)
Inductive dialog :=
| NoFolders
| CouldNotDetermine (folder_name : pystr)
| ConflictOnDisk (new_name : pystr)
| ErrorRenaming (folder_name : pystr).

Inductive event :=
| EvPrint (m : message)
| EvPost (query : pystr)
| EvDialog (d : dialog)
| EvRename (old_path new_path : pystr)
| EvThreadStart (folder_name : pystr)
| EvAfter
| EvTraceback (e : exn).

#[global] Instance exn_eq_dec : EqDecision exn.
Proof. solve_decision. Defined.
#[global] Instance message_eq_dec : EqDecision message.
Proof. solve_decision. Defined.
#[global] Instance dialog_eq_dec : EqDecision dialog.
Proof. solve_decision. Defined.
#[global] Instance event_eq_dec : EqDecision event.
Proof. solve_decision. Defined.

(** What a list of effects shows of each kind: the queries posted, the
    renames called, the threads started, the message boxes, the prints. *)
Definition requests_of (l : list event) : list pystr :=
  omap (λ e, match e with EvPost q => Some q | _ => None end) l.

Definition renames_of (l : list event) : list (pystr * pystr) :=
  omap (λ e, match e with EvRename a b => Some (a, b) | _ => None end) l.

Definition threads_of (l : list event) : list pystr :=
  omap (λ e, match e with EvThreadStart f => Some f | _ => None end) l.

Definition dialogs_of (l : list event) : list dialog :=
  omap (λ e, match e with EvDialog d => Some d | _ => None end) l.

Definition prints_of (l : list event) : list message :=
  omap (λ e, match e with EvPrint m => Some m | _ => None end) l.

(** The prints that go with a step forward of the walk: the one of
    [skip_folder] and the one after a rename that did not raise. *)
Definition advances_of (l : list event) : list message :=
  omap (λ e, match e with
             | EvPrint (MsgSkipping f) => Some (MsgSkipping f)
             | EvPrint (MsgRenamed f n) => Some (MsgRenamed f n)
             | _ => None
             end) l.

(** Effects with no bearing on the walk or the file system. *)
Definition quiet (e : list event) : Prop :=
  advances_of e = [] ∧ threads_of e = [] ∧ renames_of e = [].

Inductive result (A : Type) :=
| Ret (a : A)
| Raise (e : exn).
Arguments Ret {A} a.
Arguments Raise {A} e.

(** A computation over a state [Σ]: its result, the state it leaves, and the
    effects it performed, in order.  A raised exception keeps the state
    changes and the effects made before it. *)
Record outcome (Σ A : Type) := Outcome {
  res : result A;
  post : Σ;
  evs : list event
}.
Arguments Outcome {Σ A} res post evs.
Arguments res {Σ A} o.
Arguments post {Σ A} o.
Arguments evs {Σ A} o.

Definition M (Σ A : Type) : Type := Σ → outcome Σ A.

Module Monad.
Section Ops.
Context {Σ : Type}.

Definition ret {A} (a : A) : M Σ A := λ σ, Outcome (Ret a) σ [].

Definition bind {A B} (m : M Σ A) (k : A → M Σ B) : M Σ B := λ σ,
  match m σ with
  | Outcome (Ret a) σ1 e1 =>
      match k a σ1 with
      | Outcome r σ2 e2 => Outcome r σ2 (e1 ++ e2)
      end
  | Outcome (Raise x) σ1 e1 => Outcome (Raise x) σ1 e1
  end.

Definition raise {A} (e : exn) : M Σ A := λ σ, Outcome (Raise e) σ [].

Definition emit (e : event) : M Σ unit := λ σ, Outcome (Ret ()) σ [e].

Definition gets {A} (f : Σ → A) : M Σ A := λ σ, Outcome (Ret (f σ)) σ [].

Definition modify (f : Σ → Σ) : M Σ unit := λ σ, Outcome (Ret ()) (f σ) [].

(** [try: body  except Exception as e: handler] *)
Definition try_except {A} (body : M Σ A) (handler : exn → M Σ A) : M Σ A := λ σ,
  match body σ with
  | Outcome (Ret a) σ1 e1 => Outcome (Ret a) σ1 e1
  | Outcome (Raise x) σ1 e1 =>
      match handler x σ1 with
      | Outcome r σ2 e2 => Outcome r σ2 (e1 ++ e2)
      end
  end.

(** Lifting a value that may be an exception. *)
Definition lift {A} (r : result A) : M Σ A := λ σ, Outcome r σ [].
End Ops.
End Monad.
Import Monad.

#[global] Instance M_ret {Σ} : MRet (M Σ) := λ A, @ret Σ A.
#[global] Instance M_bind {Σ} : MBind (M Σ) := λ A B k m, @bind Σ A B m k.

(** [l[i]] on a list. *)
Definition subscript {A} (l : list A) (i : nat) : result A :=
  match l !! i with
  | Some x => Ret x
  | None => Raise IndexError
  end.

(** [d.get(key, default)]: only a dict has the method. *)
Definition py_get (d : json) (key : pystr) (default : json) : result json :=
  match d with
  | JObj fields =>
      Ret (match dict_lookup key fields with Some v => v | None => default end)
  | _ => Raise AttributeError
  end.

(** ** [search_anime] *)

(** The body of the [try]:
[[
        response = requests.post(ANILIST_URL, json={'query': ANILIST_QUERY, 'variables': variables})
        response.raise_for_status()
        data = response.json()
        return data.get('data', {}).get('Page', {}).get('media', [])
]] *)
Definition search_anime_try {Σ} (query : pystr) (net : http_outcome) : M Σ json :=
  emit (EvPost query);;
  match net with
  | TransportError => raise RequestException
  | HttpResponse status_ok body =>
      (if status_ok then mret () else raise HTTPError);;
      data ← match body with
             | Some data => mret data
             | None => raise JSONDecodeError
             end;
      d ← lift (py_get data (py "data") (JObj []));
      p ← lift (py_get d (py "Page") (JObj []));
      lift (py_get p (py "media") (JArr []))
  end.

(** [[
def search_anime(query):
    variables = {'search': query}
    try:
        ...
    except Exception as e:
        print(f'[DEBUG] Error querying AniList for ...')
        return []
]]
    [net] is what the one request meets. *)
Definition search_anime {Σ} (query : pystr) (net : http_outcome) : M Σ json :=
  try_except (search_anime_try query net)
             (λ e, emit (EvPrint (MsgErrorQuerying query));; mret (JArr [])).

(** ** The candidates of an answer

    What [fetch_candidates] does with the value [search_anime] returned,
    before it stores it:
[[
        if candidates:
            candidates = sorted(candidates, key=lambda anime: anime['startDate'].get('year') or 0, reverse=True)
            candidates = candidates[:5]
]] *)

(** The truth value of a decoded value. *)
Definition json_truthy (v : json) : bool :=
  match v with
  | JNull => false
  | JBool b => b
  | JInt n => negb (n =? 0)
  | JStr s => str_truthy s
  | JArr items => match items with [] => false | _ => true end
  | JObj fields => match fields with [] => false | _ => true end
  end.

(** [anime['startDate'].get('year')], the read of the sort key.  A
    subscript by a string raises [TypeError] on anything but a dict and
    [KeyError] on a dict without the key; only a dict has [get], which
    gives [None] for a key that is not there. *)
Definition year_of_json (anime : json) : result json :=
  match anime with
  | JObj fields =>
      match dict_lookup (py "startDate") fields with
      | Some (JObj start) => Ret (default JNull (dict_lookup (py "year") start))
      | Some _ => Raise AttributeError
      | None => Raise KeyError
      end
  | _ => Raise TypeError
  end.

(** [sorted] computes the key of every element, in order, before it
    compares any two: the first key that raises ends the call. *)
Fixpoint sort_keys (items : list json) : result (list json) :=
  match items with
  | [] => Ret []
  | anime :: rest =>
      match year_of_json anime with
      | Ret y =>
          match sort_keys rest with
          | Ret ys => Ret (y :: ys)
          | Raise x => Raise x
          end
      | Raise x => Raise x
      end
  end.

(** *** The data model

    The state of the model holds records of type [Candidate].  A media
    object of the answer whose sort key can be computed is read as such a
    record when what the program reads of it later, and only then, has the
    types the query asks for:
    - the year is an integer, or it is false in a test ([None], absent,
      [False], an empty string, list or dict), which the program does not
      tell from [None];
    - the title is an object with an entry [english];
    - the English title is a string, or it is false in a test, which the
      program does not tell from [None];
    - the romaji title is a string where the program reads it, that is
      when the English title is false in a test.  Where the program does
      not read it the record holds it if it is a string and the empty
      string if not.
    The id is not read by the program: the record holds it if it is an
    integer and 0 if not.

    [None]: the object is outside the data model (a year, a title or an
    English title of another type, or no title to read), and the model
    does not follow the program on it. *)
Definition year_of_model (y : json) : option (option Z) :=
  match y with
  | JInt n => Some (Some n)
  | _ => if json_truthy y then None else Some None
  end.

Definition titles_of_model (anime : json) : option (option pystr * pystr) :=
  match anime with
  | JObj fields =>
      match dict_lookup (py "title") fields with
      | Some (JObj title) =>
          match dict_lookup (py "english") title with
          | Some (JStr e) =>
              if str_truthy e then
                Some (Some e, match dict_lookup (py "romaji") title with
                              | Some (JStr r) => r
                              | _ => []
                              end)
              else
                match dict_lookup (py "romaji") title with
                | Some (JStr r) => Some (Some e, r)
                | _ => None
                end
          | Some e =>
              if json_truthy e then None
              else
                match dict_lookup (py "romaji") title with
                | Some (JStr r) => Some (None, r)
                | _ => None
                end
          | None => None
          end
      | _ => None
      end
  | _ => None
  end.

Definition record_of_json (anime : json) : option Candidate :=
  match anime, year_of_json anime with
  | JObj fields, Ret y =>
      y ← year_of_model y;
      '(e, r) ← titles_of_model anime;
      Some {| media_id := match dict_lookup (py "id") fields with
                          | Some (JInt i) => i
                          | _ => 0
                          end;
              english := e; romaji := r; year := y |}
  | _, _ => None
  end.

(** The value [search_anime] returned, after the sort and the cut, as the
    program stores it.
    - A value that is false in the test is stored as it is.  The program
      goes on to read it in [not self.current_candidates] and in
      [len(candidates)] only: [Some []] stands for the values that have
      length 0 (an empty list, string or dict) and [None] for those that
      have no length ([None], [False] and 0), on which [len] raises
      [TypeError].
    - [sorted] raises [TypeError] on a number or [True], which it cannot
      iterate, and on a string or a dict, whose elements are strings, on
      which the key function raises [TypeError]; on a list it raises what
      the first failing key raises.
    - A list whose keys are computed and whose objects are all of the data
      model is sorted and cut, see [top_candidates].
    - [None]: the answer is outside the data model. *)
Definition sort_and_cut (found : json)
    : option (result (option (list Candidate))) :=
  if json_truthy found then
    match found with
    | JArr items =>
        match sort_keys items with
        | Raise x => Some (Raise x)
        | Ret _ =>
            candidates ← mapM record_of_json items;
            Some (Ret (Some (top_candidates candidates)))
        end
    | _ => Some (Raise TypeError)
    end
  else
    Some (Ret (match found with
               | JStr _ | JArr _ | JObj _ => Some []
               | _ => None
               end)).

(** ** The operating system *)

(** The functions of [os] and [os.path] the program calls, over a type of
    file-system states.  [os_listdir] and [os_rename] answer [None] when the
    call raises; a rename that raises leaves the file system as it was. *)
Class OS := {
  FS : Type;
  os_path_join : pystr → pystr → pystr;
  os_path_exists : FS → pystr → bool;
  os_path_isdir : FS → pystr → bool;
  os_listdir : FS → pystr → option (list pystr);
  os_rename : FS → pystr → pystr → option FS
}.

(** ** The application object *)

(** Text of [folder_label]. *)
Inductive label_text :=
| LblFolderColon
| LblFolder (folder_name : pystr)
| LblAllProcessed.

(** Children of [inner_candidates_frame]. *)
Inductive widget :=
| WNoCandidatesFound
| WSelectMatching
| WButton (text : pystr) (index : nat).

#[global] Instance label_text_eq_dec : EqDecision label_text.
Proof. solve_decision. Defined.
#[global] Instance widget_eq_dec : EqDecision widget.
Proof. solve_decision. Defined.

(** The widgets that hold state. [skip_btn] is [true] for [tk.NORMAL];
    [dir_label] is [None] for the initial text. *)
Record Widgets := {
  disregard_brackets_var : bool;
  override_search_entry : pystr;
  dir_label : option pystr;
  folder_label : label_text;
  inner_candidates_frame : list widget;
  skip_btn : bool
}.

(** The attributes set in [__init__].  A list of candidates is [None] when
    the service answered null for the media list. *)
Record Wizard := {
  directory : pystr;
  folders : list pystr;
  folder_paths : gmap pystr pystr;
  folder_candidates : gmap pystr (option (list Candidate));
  selected_candidates : gmap pystr nat;
  current_index : nat;
  current_candidates : option (list Candidate);
  widgets : Widgets
}.

Definition set_folder_label (v : label_text) (w : Widgets) : Widgets :=
  {| disregard_brackets_var := disregard_brackets_var w;
     override_search_entry := override_search_entry w;
     dir_label := dir_label w;
     folder_label := v;
     inner_candidates_frame := inner_candidates_frame w;
     skip_btn := skip_btn w |}.

Definition set_dir_label (v : option pystr) (w : Widgets) : Widgets :=
  {| disregard_brackets_var := disregard_brackets_var w;
     override_search_entry := override_search_entry w;
     dir_label := v;
     folder_label := folder_label w;
     inner_candidates_frame := inner_candidates_frame w;
     skip_btn := skip_btn w |}.

Definition set_inner_candidates_frame (v : list widget) (w : Widgets) : Widgets :=
  {| disregard_brackets_var := disregard_brackets_var w;
     override_search_entry := override_search_entry w;
     dir_label := dir_label w;
     folder_label := folder_label w;
     inner_candidates_frame := v;
     skip_btn := skip_btn w |}.

Definition set_skip_btn (v : bool) (w : Widgets) : Widgets :=
  {| disregard_brackets_var := disregard_brackets_var w;
     override_search_entry := override_search_entry w;
     dir_label := dir_label w;
     folder_label := folder_label w;
     inner_candidates_frame := inner_candidates_frame w;
     skip_btn := v |}.

Definition set_disregard_brackets_var (v : bool) (w : Widgets) : Widgets :=
  {| disregard_brackets_var := v;
     override_search_entry := override_search_entry w;
     dir_label := dir_label w;
     folder_label := folder_label w;
     inner_candidates_frame := inner_candidates_frame w;
     skip_btn := skip_btn w |}.

Definition set_override_search_entry (v : pystr) (w : Widgets) : Widgets :=
  {| disregard_brackets_var := disregard_brackets_var w;
     override_search_entry := v;
     dir_label := dir_label w;
     folder_label := folder_label w;
     inner_candidates_frame := inner_candidates_frame w;
     skip_btn := skip_btn w |}.

Definition upd_widgets (f : Widgets → Widgets) (a : Wizard) : Wizard :=
  {| directory := directory a; folders := folders a;
     folder_paths := folder_paths a;
     folder_candidates := folder_candidates a;
     selected_candidates := selected_candidates a;
     current_index := current_index a;
     current_candidates := current_candidates a;
     widgets := f (widgets a) |}.

Definition set_directory (v : pystr) (a : Wizard) : Wizard :=
  {| directory := v; folders := folders a;
     folder_paths := folder_paths a;
     folder_candidates := folder_candidates a;
     selected_candidates := selected_candidates a;
     current_index := current_index a;
     current_candidates := current_candidates a;
     widgets := widgets a |}.

Definition set_folders (v : list pystr) (a : Wizard) : Wizard :=
  {| directory := directory a; folders := v;
     folder_paths := folder_paths a;
     folder_candidates := folder_candidates a;
     selected_candidates := selected_candidates a;
     current_index := current_index a;
     current_candidates := current_candidates a;
     widgets := widgets a |}.

Definition set_folder_paths (v : gmap pystr pystr) (a : Wizard) : Wizard :=
  {| directory := directory a; folders := folders a;
     folder_paths := v;
     folder_candidates := folder_candidates a;
     selected_candidates := selected_candidates a;
     current_index := current_index a;
     current_candidates := current_candidates a;
     widgets := widgets a |}.

Definition set_folder_candidates (v : gmap pystr (option (list Candidate)))
    (a : Wizard) : Wizard :=
  {| directory := directory a; folders := folders a;
     folder_paths := folder_paths a;
     folder_candidates := v;
     selected_candidates := selected_candidates a;
     current_index := current_index a;
     current_candidates := current_candidates a;
     widgets := widgets a |}.

Definition set_selected_candidates (v : gmap pystr nat) (a : Wizard) : Wizard :=
  {| directory := directory a; folders := folders a;
     folder_paths := folder_paths a;
     folder_candidates := folder_candidates a;
     selected_candidates := v;
     current_index := current_index a;
     current_candidates := current_candidates a;
     widgets := widgets a |}.

Definition set_current_index (v : nat) (a : Wizard) : Wizard :=
  {| directory := directory a; folders := folders a;
     folder_paths := folder_paths a;
     folder_candidates := folder_candidates a;
     selected_candidates := selected_candidates a;
     current_index := v;
     current_candidates := current_candidates a;
     widgets := widgets a |}.

Definition set_current_candidates (v : option (list Candidate)) (a : Wizard) : Wizard :=
  {| directory := directory a; folders := folders a;
     folder_paths := folder_paths a;
     folder_candidates := folder_candidates a;
     selected_candidates := selected_candidates a;
     current_index := current_index a;
     current_candidates := v;
     widgets := widgets a |}.

(** [d[key]] on a dictionary. *)
Definition dict_subscript {V} (d : gmap pystr V) (key : pystr) : result V :=
  match d !! key with
  | Some v => Ret v
  | None => Raise KeyError
  end.

(** [for x in l: body] *)
Definition for_each {Σ A} (l : list A) (body : A → M Σ unit) : M Σ unit :=
  foldr (λ x k, body x;; k) (mret ()) l.

(** The children [show_candidates] leaves in the frame for a given value of
    [current_candidates]: the label for no candidates, or the heading and
    one button for each candidate. *)
Definition frame_for (current : option (list Candidate)) : list widget :=
  match current with
  | None | Some [] => [WNoCandidatesFound]
  | Some l => WSelectMatching :: imap (λ idx anime, WButton (display_name anime) idx) l
  end.

(** ** The methods of [AnimeFolderWizard] *)

Section Controller.
Context `{os : OS}.

(** The application object, the file system, the worker threads that were
    started and have not run yet (each with its [folder_name] argument),
    and the number of [after(0, self.show_candidates)] calls waiting in
    the event loop. *)
Record World := {
  app : Wizard;
  disk : FS;
  threads : list pystr;
  after_queue : nat
}.

Definition upd_app (f : Wizard → Wizard) (w : World) : World :=
  {| app := f (app w); disk := disk w; threads := threads w;
     after_queue := after_queue w |}.

Definition set_disk (d : FS) (w : World) : World :=
  {| app := app w; disk := d; threads := threads w;
     after_queue := after_queue w |}.

Definition set_threads (t : list pystr) (w : World) : World :=
  {| app := app w; disk := disk w; threads := t;
     after_queue := after_queue w |}.

Definition set_after_queue (n : nat) (w : World) : World :=
  {| app := app w; disk := disk w; threads := threads w;
     after_queue := n |}.

Definition self {A} (f : Wizard → A) : M World A := gets (λ w, f (app w)).
Definition self_set (f : Wizard → Wizard) : M World unit := modify (upd_app f).
Definition widget_set (f : Widgets → Widgets) : M World unit :=
  self_set (upd_widgets f).

(** [widget.pack()] into [inner_candidates_frame]. *)
Definition pack (x : widget) : M World unit :=
  widget_set (λ w, set_inner_candidates_frame (inner_candidates_frame w ++ [x]) w).

(** [[
  def clear_candidates(self):
      for widget in self.inner_candidates_frame.winfo_children():
          widget.destroy()
      self.candidates_canvas.yview_moveto(0)
]] *)
Definition clear_candidates : M World unit :=
  widget_set (set_inner_candidates_frame []).

(** [[
  def show_candidates(self):
      self.clear_candidates()
      if not self.current_candidates:
          lbl = tk.Label(self.inner_candidates_frame, text='No candidates found.')
          lbl.pack(pady=5)
          return
      lbl = tk.Label(self.inner_candidates_frame, text='Select the matching anime:')
      lbl.pack(pady=5)
      for idx, anime in enumerate(self.current_candidates):
          title = anime['title']['english'] or anime['title']['romaji']
          year = anime['startDate'].get('year')
          text = f'{title} ({year})' if year else title
          btn = tk.Button(self.inner_candidates_frame, text=text,
                          command=lambda i=idx: self.candidate_selected(i))
          btn.pack(pady=2, fill=tk.X)
]] *)
Definition show_candidates : M World unit :=
  clear_candidates;;
  current ← self current_candidates;
  match current with
  | None | Some [] => pack WNoCandidatesFound
  | Some l =>
      pack WSelectMatching;;
      for_each (imap (λ idx anime, WButton (display_name anime) idx) l) pack
  end.

(** [threading.Thread(target=self.fetch_candidates, args=(folder_name,), daemon=True).start()] *)
Definition start_thread (folder_name : pystr) : M World unit :=
  emit (EvThreadStart folder_name);;
  modify (λ w, set_threads (threads w ++ [folder_name]) w).

(** [[
  def show_current_folder(self):
      if self.current_index >= len(self.folders):
          self.folder_label.config(text='All folders processed.')
          self.clear_candidates()
          self.skip_btn.config(state=tk.DISABLED)
          return
      folder_name = self.folders[self.current_index]
      self.folder_label.config(text=f'Folder: {folder_name}')
      self.clear_candidates()
      self.skip_btn.config(state=tk.NORMAL)
      threading.Thread(target=self.fetch_candidates, args=(folder_name,), daemon=True).start()
]] *)
Definition show_current_folder : M World unit :=
  index ← self current_index;
  fl ← self folders;
  if decide (length fl ≤ index)%nat then
    widget_set (set_folder_label LblAllProcessed);;
    clear_candidates;;
    widget_set (set_skip_btn false)
  else
    folder_name ← lift (subscript fl index);
    widget_set (set_folder_label (LblFolder folder_name));;
    clear_candidates;;
    widget_set (set_skip_btn true);;
    start_thread folder_name.

(** [[
  def fetch_candidates(self, folder_name):
      disregard = self.disregard_brackets_var.get()
      override_query = self.override_search_entry.get().strip()
      (the query, see build_query)
      print(...)
      candidates = search_anime(query)
      if candidates:
          (sort and cut, see top_candidates)
      self.current_candidates = candidates
      self.folder_candidates[folder_name] = candidates
      self.after(0, self.show_candidates)
]]
    It runs in a worker thread; [net] is what its request meets.  The
    result is [Some ()] when the method returns, and [None] when the answer
    is outside the data model, see [sort_and_cut]: the model stops there. *)
Definition fetch_candidates (folder_name : pystr) (net : http_outcome)
    : M World (option unit) :=
  disregard ← self (λ a, disregard_brackets_var (widgets a));
  override_entry ← self (λ a, override_search_entry (widgets a));
  let query := build_query folder_name disregard override_entry in
  emit (EvPrint (MsgSearching query));;
  found ← search_anime query net;
  match sort_and_cut found with
  | None => mret None
  | Some sorted =>
      candidates ← lift sorted;
      self_set (set_current_candidates candidates);;
      self_set (λ a, set_folder_candidates
                       (<[folder_name := candidates]> (folder_candidates a)) a);;
      emit EvAfter;;
      modify (λ w, set_after_queue (S (after_queue w)) w);;
      mret (Some ())
  end.

(** [[
  def get_new_name(self, folder):
      candidate_index = self.selected_candidates.get(folder)
      candidates = self.folder_candidates.get(folder, [])
      if candidate_index is None or candidate_index >= len(candidates):
          print(...)
          return None
      anime = candidates[candidate_index]
      title = anime['title']['english'] or anime['title']['romaji']
      year = anime['startDate'].get('year')
      new_name = f'{title} ({year})' if year else title
      new_name = sanitize_filename(new_name)
      print(...)
      return new_name
]]
    [len(None)] raises [TypeError]. *)
Definition get_new_name (folder : pystr) : M World (option pystr) :=
  candidate_index ← self (λ a, selected_candidates a !! folder);
  candidates ← self (λ a, default (Some []) (folder_candidates a !! folder));
  match candidate_index with
  | None => emit (EvPrint (MsgNoCandidateSelected folder));; mret None
  | Some candidate_index =>
      match candidates with
      | None => raise TypeError
      | Some candidates =>
          if decide (length candidates ≤ candidate_index)%nat then
            emit (EvPrint (MsgNoCandidateSelected folder));; mret None
          else
            anime ← lift (subscript candidates candidate_index);
            let new_name := sanitize_filename (display_name anime) in
            emit (EvPrint (MsgWillBeRenamed folder new_name));;
            mret (Some new_name)
      end
  end.

(** [os.rename(old_path, new_path)] *)
Definition rename_call (old_path new_path : pystr) : M World unit :=
  emit (EvRename old_path new_path);;
  d ← gets disk;
  match os_rename d old_path new_path with
  | Some d' => modify (set_disk d')
  | None => raise OSError
  end.

(** [[
  def next_folder(self):
      self.current_index += 1
      self.show_current_folder()
]] *)
Definition next_folder : M World unit :=
  self_set (λ a, set_current_index (S (current_index a)) a);;
  show_current_folder.

(** The second half of [candidate_selected], from [old_path = ...] on:
[[
      old_path = self.folder_paths[folder_name]
      new_path = os.path.join(self.directory, new_name)
      if os.path.exists(new_path):
          messagebox.showerror('Conflict', ...)
          return
      try:
          os.rename(old_path, new_path)
          print(...)
      except Exception as e:
          messagebox.showerror('Error', ...)
          return
      self.next_folder()
]] *)
Definition rename_folder (folder_name new_name : pystr) : M World unit :=
  paths ← self folder_paths;
  old_path ← lift (dict_subscript paths folder_name);
  dir ← self directory;
  let new_path := os_path_join dir new_name in
  d ← gets disk;
  if os_path_exists d new_path then
    emit (EvDialog (ConflictOnDisk new_name))
  else
    renamed ← try_except
                (rename_call old_path new_path;;
                 emit (EvPrint (MsgRenamed folder_name new_name));;
                 mret true)
                (λ e, emit (EvDialog (ErrorRenaming folder_name));;
                      mret false);
    if renamed : bool then next_folder else mret ().

(** [[
  def candidate_selected(self, index):
      folder_name = self.folders[self.current_index]
      self.selected_candidates[folder_name] = index
      new_name = self.get_new_name(folder_name)
      if not new_name:
          messagebox.showerror('Error', ...)
          return
      (the rest: rename_folder)
]]
    [not new_name] holds for [None] and for the empty string. *)
Definition candidate_selected (index : nat) : M World unit :=
  fl ← self folders;
  current ← self current_index;
  folder_name ← lift (subscript fl current);
  self_set (λ a, set_selected_candidates
                   (<[folder_name := index]> (selected_candidates a)) a);;
  new_name ← get_new_name folder_name;
  if negb (from_option str_truthy false new_name) then
    emit (EvDialog (CouldNotDetermine folder_name))
  else
    rename_folder folder_name (default [] new_name).

(** [[
  def skip_folder(self):
      folder_name = self.folders[self.current_index]
      print(...)
      self.next_folder()
]] *)
Definition skip_folder : M World unit :=
  fl ← self folders;
  current ← self current_index;
  folder_name ← lift (subscript fl current);
  emit (EvPrint (MsgSkipping folder_name));;
  next_folder.

(** [[
  def load_folders(self):
      self.folders = []
      self.folder_paths = {}
      for item in os.listdir(self.directory):
          full_path = os.path.join(self.directory, item)
          if os.path.isdir(full_path):
              self.folders.append(item)
              self.folder_paths[item] = full_path
      if not self.folders:
          messagebox.showinfo('No Folders', ...)
          return
      self.current_index = 0
      self.selected_candidates = {}
      self.folder_candidates = {}
      self.show_current_folder()
]] *)
Definition load_folders : M World unit :=
  self_set (set_folders []);;
  self_set (set_folder_paths ∅);;
  dir ← self directory;
  d ← gets disk;
  items ← match os_listdir d dir with
          | Some items => mret items
          | None => raise OSError
          end;
  for_each items (λ item,
    let full_path := os_path_join dir item in
    if os_path_isdir d full_path then
      self_set (λ a, set_folders (folders a ++ [item]) a);;
      self_set (λ a, set_folder_paths (<[item := full_path]> (folder_paths a)) a)
    else mret ());;
  fl ← self folders;
  match fl with
  | [] => emit (EvDialog NoFolders)
  | _ =>
      self_set (set_current_index 0);;
      self_set (set_selected_candidates ∅);;
      self_set (set_folder_candidates ∅);;
      show_current_folder
  end.

(** [[
  def select_directory(self):
      folder = filedialog.askdirectory(...)
      if folder:
          self.directory = folder
          self.dir_label.config(text=folder)
          self.load_folders()
]]
    [folder] is the answer of the dialog, empty when it was cancelled. *)
Definition select_directory (folder : pystr) : M World unit :=
  if str_truthy folder then
    self_set (set_directory folder);;
    widget_set (set_dir_label (Some folder));;
    load_folders
  else mret ().

(** The world once [candidate_selected] has run its second line,
    [self.selected_candidates[folder_name] = index]. *)
Definition selection_stored (folder_name : pystr) (index : nat) (w : World) : World :=
  upd_app (λ a, set_selected_candidates
                  (<[folder_name := index]> (selected_candidates a)) a) w.

(** The state [__init__] builds, on a given file system. *)
Definition initial (d : FS) : World :=
  {| app := {| directory := []; folders := []; folder_paths := ∅;
               folder_candidates := ∅; selected_candidates := ∅;
               current_index := 0; current_candidates := Some [];
               widgets := {| disregard_brackets_var := true;
                             override_search_entry := [];
                             dir_label := None;
                             folder_label := LblFolderColon;
                             inner_candidates_frame := [];
                             skip_btn := false |} |};
     disk := d; threads := []; after_queue := 0 |}.

(** ** The event loop and the worker threads *)

(** A callback run by the event loop, or the body of a thread: an
    exception that escapes is reported and the program goes on. *)
Definition callback {A} (m : M World A) (w : World) : World * list event :=
  let o := m w in
  (post o, evs o ++ match res o with
                    | Ret _ => []
                    | Raise e => [EvTraceback e]
                    end).

(** What can happen next: the user answers the directory dialog, sets the
    checkbox, edits the override entry, presses the skip button or a
    candidate button; a started worker thread runs [fetch_candidates]; the
    event loop runs a waiting [show_candidates]. *)
Inductive action :=
| SelectDirectory (folder : pystr)
| SetCheckbox (b : bool)
| TypeOverride (text : pystr)
| ClickSkip
| ClickCandidate (index : nat)
| WorkerRuns (k : nat) (net : http_outcome)
| AfterIdle.

Definition has_button (index : nat) (w : World) : bool :=
  existsb (λ x, match x with
                | WButton _ i => (i =? index)%nat
                | _ => false
                end)
          (inner_candidates_frame (widgets (app w))).

(** One step; [None] when the action is not possible in [w] (a disabled
    or absent button, no such thread, nothing waiting), and when the answer
    a thread meets is outside the data model. *)
Definition act (a : action) (w : World) : option (World * list event) :=
  match a with
  | SelectDirectory folder => Some (callback (select_directory folder) w)
  | SetCheckbox b =>
      Some (upd_app (upd_widgets (set_disregard_brackets_var b)) w, [])
  | TypeOverride text =>
      Some (upd_app (upd_widgets (set_override_search_entry text)) w, [])
  | ClickSkip =>
      if skip_btn (widgets (app w)) then Some (callback skip_folder w) else None
  | ClickCandidate index =>
      if has_button index w then Some (callback (candidate_selected index) w)
      else None
  | WorkerRuns k net =>
      match threads w !! k with
      | Some folder_name =>
          let w0 := set_threads (delete k (threads w)) w in
          match res (fetch_candidates folder_name net w0) with
          | Ret None => None
          | _ => Some (callback (fetch_candidates folder_name net) w0)
          end
      | None => None
      end
  | AfterIdle =>
      match after_queue w with
      | S n => Some (callback show_candidates (set_after_queue n w))
      | O => None
      end
  end.

Fixpoint run (acts : list action) (w : World) : option (World * list event) :=
  match acts with
  | [] => Some (w, [])
  | a :: rest =>
      match act a w with
      | Some (w1, e1) =>
          match run rest w1 with
          | Some (w2, e2) => Some (w2, e1 ++ e2)
          | None => None
          end
      | None => None
      end
  end.

(** Every action but the choice of a directory. *)
Definition is_walk (a : action) : Prop :=
  match a with
  | SelectDirectory _ => False
  | _ => True
  end.

(** How a stretch of the walk relates the worlds at its ends and its
    effects: the list of folders is the same, the current index has grown
    by the number of skips and successful renames, and the threads started
    are those of the folders that follow the one that was current, in
    listing order, one for each step forward that did not reach the end of
    the list. *)
Definition walked (w w' : World) (e : list event) : Prop :=
  folders (app w') = folders (app w) ∧
  current_index (app w') =
    (current_index (app w) + length (advances_of e))%nat ∧
  threads_of e =
    take (length (advances_of e))
         (drop (S (current_index (app w))) (folders (app w))) ∧
  (advances_of e ≠ [] →
     (current_index (app w') ≤ length (folders (app w)))%nat).

(** The four kinds of effect a single step of the walk can have on the
    file system and on the progress of the walk: none; a rename that was
    called and raised; a skip; a rename that was called and returned. *)
Inductive stepped (w w' : World) (e : list event) : Prop :=
| step_still :
    advances_of e = [] → renames_of e = [] → disk w' = disk w →
    stepped w w' e
| step_rename_raised folder_name old_path new_path :
    folders (app w) !! current_index (app w) = Some folder_name →
    advances_of e = [] → renames_of e = [(old_path, new_path)] →
    os_rename (disk w) old_path new_path = None → disk w' = disk w →
    stepped w w' e
| step_skipped folder_name :
    folders (app w) !! current_index (app w) = Some folder_name →
    advances_of e = [MsgSkipping folder_name] → renames_of e = [] →
    disk w' = disk w →
    stepped w w' e
| step_renamed folder_name new_name old_path new_path :
    folders (app w) !! current_index (app w) = Some folder_name →
    advances_of e = [MsgRenamed folder_name new_name] →
    renames_of e = [(old_path, new_path)] →
    os_rename (disk w) old_path new_path = Some (disk w') →
    stepped w w' e.

End Controller.

(** ** Conditions on the application object *)

(** The exceptions that reached the event loop or ended a thread. *)
Definition exns_of (l : list event) : list exn :=
  omap (λ e, match e with EvTraceback x => Some x | _ => None end) l.

(** The label and the skip button agree with the current index: with a
    folder at the index, the label names it and the button is enabled; with
    the index past the list, the label says that all folders are processed
    and the button is disabled. *)
Definition settled (a : Wizard) : Prop :=
  match folders a !! current_index a with
  | Some folder_name =>
      folder_label (widgets a) = LblFolder folder_name ∧ skip_btn (widgets a) = true
  | None =>
      folder_label (widgets a) = LblAllProcessed ∧ skip_btn (widgets a) = false
  end.

Section Listing.
Context `{os : OS}.

(** [folder_paths] holds, for the names in [folders] and for no other, the
    directory joined with the name. *)
Definition listed (a : Wizard) : Prop :=
  ∀ item, folder_paths a !! item =
          if decide (item ∈ folders a) then Some (os_path_join (directory a) item)
          else None.

(** What no method but [select_directory] and [load_folders] writes, and
    what only the user writes. *)
Definition kept (a a' : Wizard) : Prop :=
  directory a' = directory a ∧ folders a' = folders a ∧
  folder_paths a' = folder_paths a ∧
  override_search_entry (widgets a') = override_search_entry (widgets a) ∧
  disregard_brackets_var (widgets a') = disregard_brackets_var (widgets a).

(** The paths [load_folders] records for the entries [items] of [dir]. *)
Definition paths_of (d : FS) (dir : pystr) (items : list pystr)
    (paths : gmap pystr pystr) : gmap pystr pystr :=
  foldl (λ paths item,
           if os_path_isdir d (os_path_join dir item)
           then <[item := os_path_join dir item]> paths else paths)
        paths items.

(** What a callback of the event loop does to the world [w]: it keeps what
    [kept] names; the threads it starts are added to those waiting; it posts
    nothing and reports no exception itself; either it leaves the index, the label and the skip button
    alone and starts no thread, or it leaves them [settled]; and it returns,
    or raises [IndexError] or [TypeError], or raises [KeyError] with the
    current folder missing from [folder_paths]. *)
Definition main_step (w : World) (o : outcome World unit) : Prop :=
  kept (app w) (app (post o)) ∧
  threads (post o) = threads w ++ threads_of (evs o) ∧
  requests_of (evs o) = [] ∧ exns_of (evs o) = [] ∧
  ((current_index (app (post o)) = current_index (app w) ∧
    folder_label (widgets (app (post o))) = folder_label (widgets (app w)) ∧
    skip_btn (widgets (app (post o))) = skip_btn (widgets (app w)) ∧
    threads_of (evs o) = []) ∨
   settled (app (post o))) ∧
  (res o = Ret () ∨ res o = Raise IndexError ∨ res o = Raise TypeError ∨
   (res o = Raise KeyError ∧
    ∃ f, folders (app w) !! current_index (app w) = Some f ∧
         folder_paths (app w) !! f = None)).

(** The actions in which the user edits the checkbox or the override. *)
Definition is_edit (a : action) : Prop :=
  match a with
  | SetCheckbox _ | TypeOverride _ => True
  | _ => False
  end.

(** The account of threads and requests, the listing, the exceptions, the
    user's two widgets and the label, over one step. *)
Definition step_facts (a : action) (w w' : World) (e : list event) : Prop :=
  (length (threads w') + length (requests_of e) =
   length (threads w) + length (threads_of e))%nat ∧
  (listed (app w) →
   listed (app w') ∧
   ∀ x, x ∈ exns_of e →
     x ≠ RequestException ∧ x ≠ HTTPError ∧ x ≠ JSONDecodeError) ∧
  (¬ is_edit a →
   override_search_entry (widgets (app w')) =
     override_search_entry (widgets (app w)) ∧
   disregard_brackets_var (widgets (app w')) =
     disregard_brackets_var (widgets (app w)) ∧
   ∀ q, q ∈ requests_of e →
     ∃ f, q = build_query f (disregard_brackets_var (widgets (app w)))
                (override_search_entry (widgets (app w)))) ∧
  (is_walk a →
   folders (app w') = folders (app w) ∧ (settled (app w) → settled (app w'))).

End Listing.

(** ** A file system of directories, for running the model

    The state is the list of the paths that exist, all of them directories.
    Paths are joined as [posixpath.join] joins two components. *)
Module DirTree.

Definition slash : N := 47.

Definition join (a b : pystr) : pystr :=
  if from_option (λ c, c =? slash)%N false (head b) then b
  else match last a with
       | None => b
       | Some z => if (z =? slash)%N then a ++ b else a ++ slash :: b
       end.

(** [Some rest] when [p = prefix ++ rest]. *)
Fixpoint strip_prefix (prefix p : pystr) : option pystr :=
  match prefix, p with
  | [], _ => Some p
  | a :: prefix', b :: p' => if (a =? b)%N then strip_prefix prefix' p' else None
  | _ :: _, [] => None
  end.

Definition exists_ (fs : list pystr) (p : pystr) : bool := bool_decide (p ∈ fs).

(** The name of [p] when [p] lies directly in [dir]. *)
Definition child_of (dir p : pystr) : option pystr :=
  match strip_prefix (dir ++ [slash]) p with
  | Some (c :: name) =>
      if bool_decide (slash ∈ c :: name) then None else Some (c :: name)
  | _ => None
  end.

Definition listdir (fs : list pystr) (dir : pystr) : option (list pystr) :=
  if exists_ fs dir then Some (omap (child_of dir) fs) else None.

(** Renaming moves a directory with everything below it; it raises when
    the source is missing or the target exists. *)
Definition rename (fs : list pystr) (old_path new_path : pystr) : option (list pystr) :=
  if exists_ fs old_path && negb (exists_ fs new_path) then
    Some ((λ p, if bool_decide (p = old_path) then new_path
                else match strip_prefix (old_path ++ [slash]) p with
                     | Some rest => new_path ++ slash :: rest
                     | None => p
                     end) <$> fs)
  else None.

#[export] Instance os : OS := {|
  FS := list pystr;
  os_path_join := join;
  os_path_exists := exists_;
  os_path_isdir := exists_;
  os_listdir := listdir;
  os_rename := rename
|}.

End DirTree.

(** ** The new name as the specification words it

    For comparison with [get_new_name]: the English title if present,
    otherwise the romanized one, followed by the year in parentheses exactly
    when a year is present, then sanitized. *)
Definition new_name_as_specified (anime : Candidate) : pystr :=
  sanitize_filename
    (match english anime with Some e => e | None => romaji anime end
     ++ match year anime with
        | Some y => py " (" ++ str_of_int y ++ py ")"
        | None => []
        end).

(** ** Sample data *)
Module Sample.
Import DirTree.

(** A library with two folders, one of them with a file below it. *)
Definition lib : list pystr :=
  [py "/lib"; py "/lib/Alpha [BD]"; py "/lib/Beta (2001)";
   py "/lib/Alpha [BD]/ep1"].

Definition alpha : pystr := py "Alpha [BD]".
Definition beta : pystr := py "Beta (2001)".

(** A media object as the service sends it. *)
Definition media (i : Z) (e : json) (r : string) (y : json) : json :=
  JObj [(py "id", JInt i);
        (py "title", JObj [(py "romaji", JStr (py r)); (py "english", e)]);
        (py "startDate", JObj [(py "year", y)])].

Definition answer (items : list json) : http_outcome :=
  HttpResponse true
    (Some (JObj [(py "data", JObj [(py "Page", JObj [(py "media", JArr items)])])])).

Definition answer_alpha : http_outcome :=
  answer [media 1 (JStr (py "Alpha")) "Arufa" (JInt 1999);
          media 2 (JStr (py "Alpha II")) "Arufa 2" (JInt 2005)].

Definition answer_beta : http_outcome :=
  answer [media 3 (JStr (py "Beta")) "Beeta" (JInt 2001)].

(** An answer whose media list is null. *)
Definition answer_null : http_outcome :=
  HttpResponse true
    (Some (JObj [(py "data", JObj [(py "Page", JObj [(py "media", JNull)])])])).

(** A title that sanitizes to nothing, and no year. *)
Definition answer_unnameable : http_outcome :=
  answer [media 4 (JStr (py " ?*? ")) "Hatena" JNull].

Definition example_show : Candidate :=
  {| media_id := 7; english := Some (py "Example Show");
     romaji := py "Rei"; year := None |}.

(** A year that is present and equal to zero. *)
Definition year_zero : Candidate :=
  {| media_id := 8; english := Some (py "Example Show");
     romaji := py "Rei"; year := Some 0 |}.

(** An English title that is present and empty. *)
Definition empty_english : Candidate :=
  {| media_id := 9; english := Some []; romaji := py "Rei"; year := Some 2013 |}.

(** The program just started. *)
Definition start : World := initial (os := os) lib.

(** The world the actions lead to, from the start. *)
Definition after (acts : list action) : World :=
  match run acts start with
  | Some (w, _) => w
  | None => start
  end.

Definition effects (acts : list action) : list event :=
  match run acts start with
  | Some (_, e) => e
  | None => []
  end.

(** The effects of [acts] from [w] on. *)
Definition effects_from (w : World) (acts : list action) : list event :=
  match run acts w with
  | Some (_, e) => e
  | None => []
  end.

(** The first folder is shown and its search has not answered. *)
Definition shown : World := after [SelectDirectory (py "/lib")].

(** The candidates of the first folder are on screen. *)
Definition alpha_listed : World :=
  after [SelectDirectory (py "/lib"); WorkerRuns 0 answer_alpha; AfterIdle].

Definition unnameable_listed : World :=
  after [SelectDirectory (py "/lib"); WorkerRuns 0 answer_unnameable; AfterIdle].

(** The second folder is current and its candidate is on screen. *)
Definition beta_listed : World :=
  after [SelectDirectory (py "/lib"); ClickSkip; WorkerRuns 1 answer_beta;
         AfterIdle].

(** As [alpha_listed], but the folder has been removed from the disk by
    someone else in the meantime. *)
Definition alpha_gone : World :=
  set_disk [py "/lib"; py "/lib/Beta (2001)"] alpha_listed.

Definition answer_year_zero : http_outcome :=
  answer [media 8 (JStr (py "Example Show")) "Rei" (JInt 0)].

Definition year_zero_listed : World :=
  after [SelectDirectory (py "/lib"); WorkerRuns 0 answer_year_zero; AfterIdle].

(** A whole walk: the first folder is renamed, the second skipped. *)
Definition whole_walk : list action :=
  [WorkerRuns 0 answer_alpha; AfterIdle; ClickCandidate 0; ClickSkip].

(** The user skips the first folder before its search answers; the search
    for the second folder answers; then the first one does. *)
Definition late_answer : list action :=
  [SelectDirectory (py "/lib"); ClickSkip;
   WorkerRuns 1 answer_beta; AfterIdle;
   WorkerRuns 0 answer_alpha; AfterIdle].

(** As [late_answer], but the search for the second folder is answered
    with a null media list. *)
Definition late_answer_after_null : list action :=
  [SelectDirectory (py "/lib"); ClickSkip;
   WorkerRuns 1 answer_null; AfterIdle;
   WorkerRuns 0 answer_alpha; AfterIdle].

End Sample.

(** * Properties *)

Section StringFacts.

Lemma lstrip_sublist s : lstrip s `sublist_of` s.
Proof.
  induction s as [|c t IH]; simpl; [done|].
  destruct (is_space c); [by apply sublist_cons | done].
Qed.

Lemma rstrip_sublist s : rstrip s `sublist_of` s.
Proof.
  induction s as [|c t IH]; simpl; [done|].
  destruct (rstrip t) as [|a r].
  - destruct (is_space c); [apply sublist_nil_l|].
    apply sublist_skip, sublist_nil_l.
  - by apply sublist_skip.
Qed.

Lemma strip_sublist s : strip s `sublist_of` s.
Proof.
  unfold strip. etrans; [apply rstrip_sublist | apply lstrip_sublist].
Qed.

Lemma lstrip_head s : ∀ c, head (lstrip s) = Some c → is_space c = false.
Proof.
  induction s as [|a t IH]; simpl; intros c; [done|].
  destruct (is_space a) eqn:Ha; [by apply IH|].
  simpl. by intros [= <-].
Qed.

Lemma lstrip_id s : (∀ c, head s = Some c → is_space c = false) → lstrip s = s.
Proof.
  destruct s as [|a t]; simpl; [done|].
  intros H. by rewrite (H a eq_refl).
Qed.

Lemma rstrip_last s : ∀ c, last (rstrip s) = Some c → is_space c = false.
Proof.
  induction s as [|a t IH]; simpl; intros c; [done|].
  destruct (rstrip t) as [|b r].
  - destruct (is_space a) eqn:Ha; [done|]. simpl. by intros [= <-].
  - rewrite last_cons_cons. apply IH.
Qed.

Lemma rstrip_id s : (∀ c, last s = Some c → is_space c = false) → rstrip s = s.
Proof.
  induction s as [|a t IH]; simpl; [done|].
  destruct t as [|b t'].
  - intros H. simpl. by rewrite (H a eq_refl).
  - intros H. rewrite IH; [done|]. intros c Hc. apply H.
    by rewrite last_cons_cons.
Qed.

(** Dropping trailing blanks keeps a non-blank first character first. *)
Lemma rstrip_head s :
  (∀ c, head s = Some c → is_space c = false) →
  ∀ c, head (rstrip s) = Some c → is_space c = false.
Proof.
  destruct s as [|a t]; simpl; [done|].
  intros Hs c. destruct (rstrip t) as [|b r].
  - destruct (is_space a); [done|]. apply Hs.
  - apply Hs.
Qed.

Lemma strip_head s c : head (strip s) = Some c → is_space c = false.
Proof. apply rstrip_head, lstrip_head. Qed.

Lemma strip_last s c : last (strip s) = Some c → is_space c = false.
Proof. apply rstrip_last. Qed.

Lemma strip_id s :
  (∀ c, head s = Some c → is_space c = false) →
  (∀ c, last s = Some c → is_space c = false) →
  strip s = s.
Proof.
  intros Hh Hl. unfold strip. rewrite (lstrip_id s Hh). by apply rstrip_id.
Qed.

Lemma strip_idemp s : strip (strip s) = strip s.
Proof. apply strip_id; [apply strip_head | apply strip_last]. Qed.

End StringFacts.

(** ** The sanitizer *)

Section Sanitizer.

(** What the loop over [invalid] leaves of [name]. *)
Let removed (chars name : pystr) : pystr :=
  foldl (λ name char, replace_char_empty char name) name chars.

Lemma removed_sublist chars : ∀ name, removed chars name `sublist_of` name.
Proof.
  induction chars as [|c cs IH]; intros name; simpl; [done|].
  etrans; [apply IH | apply sublist_filter].
Qed.

Lemma removed_elem_of chars : ∀ name x,
  x ∈ removed chars name ↔ x ∈ name ∧ x ∉ chars.
Proof.
  induction chars as [|c cs IH]; intros name x; simpl.
  - split; [intros ?; split; [done | by apply not_elem_of_nil] | by intros []].
  - rewrite IH. unfold replace_char_empty. rewrite list_elem_of_filter.
    rewrite not_elem_of_cons. tauto.
Qed.

Lemma removed_id chars : ∀ name,
  (∀ x, x ∈ chars → x ∉ name) → removed chars name = name.
Proof.
  induction chars as [|c cs IH]; intros name Hn; simpl; [done|].
  assert (Hf : replace_char_empty c name = name).
  { unfold replace_char_empty. clear IH.
    assert (Hc : c ∉ name) by (apply Hn; left).
    induction name as [|a t IHt]; [done|].
    apply not_elem_of_cons in Hc as [Hne Hc].
    rewrite filter_cons_True by done. f_equal. apply IHt; [|done].
    intros x Hx Hin. apply (Hn x Hx). by right. }
  rewrite Hf. apply IH. intros x Hx. apply Hn. by right.
Qed.

(** C2. For every input, the output of [sanitize_filename] holds none of
    the nine invalid characters, neither starts nor ends with a whitespace
    character, is made of characters of the input only (it is a
    subsequence of the input), and is a fixed point of the sanitizer. *)
Theorem sanitize_filename_spec (name : pystr) :
  let out := sanitize_filename name in
  (∀ c, c ∈ invalid → c ∉ out) ∧
  (∀ c, head out = Some c → is_space c = false) ∧
  (∀ c, last out = Some c → is_space c = false) ∧
  out `sublist_of` name ∧
  (∀ c, c ∈ out → c ∈ name) ∧
  sanitize_filename out = out.
Proof.
  intros out. subst out. unfold sanitize_filename.
  fold (removed invalid name).
  assert (Hsub : strip (removed invalid name) `sublist_of` name).
  { etrans; [apply strip_sublist | apply removed_sublist]. }
  assert (Hclean : ∀ c, c ∈ invalid → c ∉ strip (removed invalid name)).
  { intros c Hc Hin.
    assert (Hin' : c ∈ removed invalid name).
    { eapply elem_of_sublist; [exact Hin | apply strip_sublist]. }
    apply removed_elem_of in Hin' as [_ Hn]. done. }
  repeat split.
  - exact Hclean.
  - apply strip_head.
  - apply strip_last.
  - exact Hsub.
  - intros c Hc. by eapply elem_of_sublist.
  - fold (removed invalid (strip (removed invalid name))).
    rewrite removed_id by exact Hclean. apply strip_idemp.
Qed.

End Sanitizer.

(** ** The query *)

Section Query.

Lemma lazy_close_Some t rest :
  lazy_close t = Some rest ↔
  ∃ body c, t = body ++ c :: rest ∧ is_close c = true ∧
            Forall (λ x, is_close x = false ∧ is_dot x = true) body.
Proof.
  split.
  - revert rest. induction t as [|a t IH]; simpl; intros rest; [done|].
    destruct (is_close a) eqn:Ha.
    + intros [= <-]. by exists [], a.
    + destruct (is_dot a) eqn:Hd; [|done].
      intros (body & c & -> & Hc & Hb)%IH.
      exists (a :: body), c. split_and!; [done | done |].
      by constructor.
  - intros (body & c & -> & Hc & Hb).
    induction Hb as [|a body [Ha Hd] _ IH]; simpl.
    + by rewrite Hc.
    + by rewrite Ha, Hd.
Qed.

Lemma match_span_Some s rest :
  match_span s = Some rest ↔ ∃ body, span_at s body rest.
Proof.
  unfold span_at. destruct s as [|o t]; simpl.
  - split; [done | by intros (? & ? & ? & ? & _)].
  - destruct (is_open o) eqn:Ho.
    + rewrite lazy_close_Some. split.
      * intros (body & c & -> & Hc & Hb). by exists body, o, c.
      * intros (body & o' & c & [= <- ->] & _ & Hc & Hb). by exists body, c.
    + split; [done|].
      intros (body & o' & c & [= <- ->] & Ho' & _). congruence.
Qed.

Lemma match_span_None s :
  match_span s = None → ∀ body rest, ¬ span_at s body rest.
Proof.
  intros Hn body rest Hs.
  assert (match_span s = Some rest) by (apply match_span_Some; eauto).
  congruence.
Qed.

Lemma re_sub_spans_cons c t :
  re_sub_spans (c :: t) =
    match match_span (c :: t) with
    | Some rest => re_sub_spans rest
    | None => c :: re_sub_spans t
    end.
Proof.
  simp re_sub_spans.
  destruct (inspect (match_span (c :: t))) as [[rest|] Hm];
    simp re_sub_spans; by rewrite Hm.
Qed.

Lemma span_at_shorter s body rest :
  span_at s body rest → (length rest < length s)%nat.
Proof.
  intros (o & c & -> & _). simpl. rewrite length_app. simpl. lia.
Qed.

(** The scan removes the spans, from left to right. *)
Lemma re_sub_spans_removed s : spans_removed s (re_sub_spans s).
Proof.
  remember (length s) as n eqn:Hn.
  revert s Hn. induction (lt_wf n) as [n _ IH]. intros s ->.
  destruct s as [|c t]; [simp re_sub_spans; constructor|].
  rewrite re_sub_spans_cons.
  destruct (match_span (c :: t)) as [rest|] eqn:Hm.
  - apply match_span_Some in Hm as [body Hs].
    eapply spans_removed_span; [exact Hs|].
    eapply IH; [|done]. by eapply span_at_shorter.
  - apply spans_removed_keep; [by apply match_span_None|].
    eapply IH; [|done]. simpl. lia.
Qed.

(** Nothing else does. *)
Lemma spans_removed_unique s out : spans_removed s out → out = re_sub_spans s.
Proof.
  induction 1 as [|s body rest out Hs _ IH|x t out Hn _ IH].
  - by simp re_sub_spans.
  - assert (Hm : match_span s = Some rest) by (apply match_span_Some; eauto).
    destruct Hs as (o & c & -> & _).
    by rewrite re_sub_spans_cons, Hm.
  - rewrite re_sub_spans_cons.
    destruct (match_span (x :: t)) as [rest|] eqn:Hm.
    + apply match_span_Some in Hm as [body Hs]. by destruct (Hn body rest).
    + by rewrite IH.
Qed.

(** C3, as amended.  A non-blank override gives the override with its
    leading and trailing whitespace trimmed, whatever the folder name and
    the flag; with a blank override and the flag set, the query is the
    folder name with every span removed and the result trimmed, a span
    running from an opening parenthesis or bracket to the first closing
    parenthesis or bracket after it, with no line feed in between, and the
    spans being taken from the left; with a blank override and the flag
    unset it is the folder name. *)
Theorem build_query_spec (folder_name : pystr) (disregard : bool)
    (override_entry : pystr) :
  let query := build_query folder_name disregard override_entry in
  (strip override_entry ≠ [] → query = strip override_entry) ∧
  (strip override_entry = [] → disregard = true →
     ∃ out, spans_removed folder_name out ∧
            (∀ out', spans_removed folder_name out' → out' = out) ∧
            query = strip out) ∧
  (strip override_entry = [] → disregard = false → query = folder_name).
Proof.
  unfold build_query. split_and!.
  - intros Hne. destruct (strip override_entry); [done | done].
  - intros -> ->. simpl. exists (re_sub_spans folder_name).
    split_and!; [apply re_sub_spans_removed | apply spans_removed_unique | done].
  - by intros -> ->.
Qed.

Lemma build_query_spec_witness :
  build_query (py "Mob") true (py " Shingeki no Kyojin ") = py "Shingeki no Kyojin" ∧
  (∃ out, spans_removed (py "Attack on Titan (2013) [BD]") out ∧
          build_query (py "Attack on Titan (2013) [BD]") true [] = strip out) ∧
  build_query (py "Attack on Titan (2013) [BD]") false [] =
    py "Attack on Titan (2013) [BD]".
Proof.
  split_and!.
  - apply (build_query_spec (py "Mob") true (py " Shingeki no Kyojin ")).
    vm_compute. discriminate.
  - destruct (build_query_spec (py "Attack on Titan (2013) [BD]") true [])
      as (_ & H & _).
    destruct (H eq_refl eq_refl) as (out & Hout & _ & Hq). eauto.
  - by apply (build_query_spec (py "Attack on Titan (2013) [BD]") false []).
Defined.

(** C3 as stated fails: an override with blanks around it is not used
    verbatim; and a parenthesis that is closed only on a later line is not
    removed. *)
Lemma build_query_override_not_verbatim :
  strip (py " Naruto ") ≠ [] ∧
  build_query (py "Naruto Box [BD]") true (py " Naruto ") = py "Naruto" ∧
  build_query (py "Naruto Box [BD]") true (py " Naruto ") ≠ py " Naruto " ∧
  build_query (py "a(b" ++ [10%N] ++ py "c)d") true [] =
    py "a(b" ++ [10%N] ++ py "c)d".
Proof. split_and!; by vm_compute. Qed.

Example re_sub_spans_nested : re_sub_spans (py "((a))") = py ")".
Proof. reflexivity. Qed.

Example re_sub_spans_mixed : re_sub_spans (py "a)b(c]d") = py "a)bd".
Proof. reflexivity. Qed.

Example re_sub_spans_unclosed : re_sub_spans (py "a (b") = py "a (b".
Proof. reflexivity. Qed.

Example build_query_attack_on_titan :
  build_query (py "Attack on Titan (2013) [BD]") true [] = py "Attack on Titan".
Proof. reflexivity. Qed.

End Query.

(** ** Sorting and cutting the candidates *)

Section SortFacts.
Context {A : Type} (key : A → Z).

Lemma insert_desc_perm x l : insert_desc key x l ≡ₚ x :: l.
Proof.
  induction l as [|y t IH]; simpl; [done|].
  destruct (key x <? key y); [|done].
  rewrite IH. apply Permutation_swap.
Qed.

Lemma insert_desc_sorted x l :
  StronglySorted (key_ge key) l → StronglySorted (key_ge key) (insert_desc key x l).
Proof.
  induction 1 as [|y t Ht IH Hy]; simpl.
  - repeat constructor.
  - destruct (Z.ltb_spec (key x) (key y)) as [Hlt|Hge].
    + constructor; [done|].
      rewrite insert_desc_perm. constructor; [unfold key_ge; lia | done].
    + constructor; [by constructor|].
      constructor; [done|].
      eapply Forall_impl; [exact Hy|]. unfold key_ge. intros; simpl in *; lia.
Qed.

(** Elements with one key keep their order. *)
Lemma insert_desc_stable k x l :
  filter (λ a, key a = k) (insert_desc key x l) =
  filter (λ a, key a = k) (x :: l).
Proof.
  induction l as [|y t IH]; simpl; [done|].
  destruct (Z.ltb_spec (key x) (key y)) as [Hlt|Hge]; [|done].
  rewrite (filter_cons _ y), IH, !(filter_cons _ x), (filter_cons _ y).
  repeat case_decide; try done. lia.
Qed.

Lemma sorted_reverse_perm l : sorted_reverse key l ≡ₚ l.
Proof.
  induction l as [|x t IH]; simpl; [done|].
  by rewrite insert_desc_perm, IH.
Qed.

Lemma sorted_reverse_sorted l : StronglySorted (key_ge key) (sorted_reverse key l).
Proof.
  induction l as [|x t IH]; simpl; [constructor|].
  by apply insert_desc_sorted.
Qed.

Lemma sorted_reverse_stable k l :
  filter (λ a, key a = k) (sorted_reverse key l) = filter (λ a, key a = k) l.
Proof.
  induction l as [|x t IH]; simpl; [done|].
  by rewrite insert_desc_stable, !filter_cons, IH.
Qed.

Lemma StronglySorted_take n l :
  StronglySorted (key_ge key) l → StronglySorted (key_ge key) (take n l).
Proof.
  intros Hs. rewrite <- (take_drop n l) in Hs.
  by apply StronglySorted_app in Hs as (_ & ? & _).
Qed.

Lemma StronglySorted_lookup l i j a b :
  StronglySorted (key_ge key) l → (i < j)%nat →
  l !! i = Some a → l !! j = Some b → key b ≤ key a.
Proof.
  intros Hs. revert i j. induction Hs as [|y t _ IH Hy]; intros i j Hij Ha Hb.
  - done.
  - destruct i as [|i], j as [|j]; try lia; simpl in *.
    + injection Ha as ->. rewrite Forall_forall in Hy.
      apply Hy. by eapply list_elem_of_lookup_2.
    + eapply (IH i j); [lia | done | done].
Qed.

End SortFacts.

Section TopCandidates.

(** C4, as amended.  The candidates kept are the first five of the list
    sorted by the key (the year, 0 for a missing year) in descending order;
    the sorted list is a rearrangement of the input in which candidates of
    equal key stand in their original order; in the result a candidate with
    a missing year has no candidate of positive year after it, and when
    every year present in the input is positive it has only candidates with
    a missing year after it. *)
Theorem top_candidates_spec (candidates : list Candidate) :
  ∃ s,
    top_candidates candidates = take 5 s ∧
    s ≡ₚ candidates ∧
    StronglySorted (key_ge year_key) s ∧
    (∀ k, filter (λ c, year_key c = k) s = filter (λ c, year_key c = k) candidates) ∧
    (∀ c, year_key c = default 0 (year c)) ∧
    (length (top_candidates candidates) ≤ 5)%nat ∧
    (∀ i j a b, (i < j)%nat →
       top_candidates candidates !! i = Some a →
       top_candidates candidates !! j = Some b →
       year_key b ≤ year_key a ∧
       (year a = None → ∀ y, year b = Some y → y ≤ 0)) ∧
    ((∀ c y, c ∈ candidates → year c = Some y → 0 < y) →
     ∀ i j a b, (i < j)%nat →
       top_candidates candidates !! i = Some a →
       top_candidates candidates !! j = Some b →
       year a = None → year b = None).
Proof.
  exists (sorted_reverse year_key candidates).
  assert (Htop : top_candidates candidates =
                 take 5 (sorted_reverse year_key candidates)).
  { by destruct candidates. }
  assert (Hkey : ∀ c, year_key c = default 0 (year c)).
  { intros c. unfold year_key. destruct (year c) as [y|]; simpl; [|done].
    destruct (Z.eqb_spec y 0); congruence. }
  assert (Hord : ∀ i j a b, (i < j)%nat →
     top_candidates candidates !! i = Some a →
     top_candidates candidates !! j = Some b →
     year_key b ≤ year_key a ∧
     (year a = None → ∀ y, year b = Some y → y ≤ 0)).
  { intros i j a b Hij Ha Hb.
    assert (Hle : year_key b ≤ year_key a).
    { rewrite Htop in Ha, Hb.
      eapply (StronglySorted_lookup year_key _ i j); [|done..].
      apply StronglySorted_take, sorted_reverse_sorted. }
    split; [done|]. intros Hna y Hy.
    rewrite !Hkey, Hna, Hy in Hle. done. }
  split_and!.
  - exact Htop.
  - apply sorted_reverse_perm.
  - apply sorted_reverse_sorted.
  - intros k. apply sorted_reverse_stable.
  - exact Hkey.
  - rewrite Htop, length_take. lia.
  - exact Hord.
  - intros Hpos i j a b Hij Ha Hb Hna.
    destruct (year b) as [y|] eqn:Hy; [|done].
    destruct (Hord i j a b Hij Ha Hb) as [_ Hle].
    specialize (Hle Hna y Hy).
    assert (Hin : b ∈ candidates).
    { rewrite <- (sorted_reverse_perm year_key candidates).
      rewrite Htop in Hb. apply lookup_take_Some in Hb as [Hb _].
      by eapply list_elem_of_lookup_2. }
    specialize (Hpos b y Hin Hy). lia.
Qed.

(** C4 as stated fails: a candidate without year can stand before one whose
    year is present, when that year is zero or negative. *)
Lemma missing_year_is_not_last :
  let c i y := {| media_id := i; english := None; romaji := py "x"; year := y |} in
  top_candidates [c 1 None; c 2 (Some 0)] = [c 1 None; c 2 (Some 0)] ∧
  top_candidates [c 1 None; c 2 (Some (-1))] = [c 1 None; c 2 (Some (-1))] ∧
  ¬ (∀ i j a b, (i < j)%nat →
       top_candidates [c 1 None; c 2 (Some 0)] !! i = Some a →
       top_candidates [c 1 None; c 2 (Some 0)] !! j = Some b →
       year a = None → year b = None).
Proof.
  intros c. split_and!; [done | done |].
  intros H. by specialize (H 0%nat 1%nat (c 1 None) (c 2 (Some 0))
                             ltac:(lia) eq_refl eq_refl eq_refl).
Qed.

Example display_name_with_year :
  display_name {| media_id := 16498; english := Some (py "Attack on Titan");
                  romaji := py "Shingeki no Kyojin"; year := Some 2013 |}
  = py "Attack on Titan (2013)".
Proof. reflexivity. Qed.

Example display_name_without_year :
  display_name {| media_id := 7; english := Some (py "Example Show");
                  romaji := py "Rei"; year := None |}
  = py "Example Show".
Proof. reflexivity. Qed.

Example top_candidates_keeps_order_of_equal_years :
  let c i y := {| media_id := i; english := None; romaji := []; year := y |} in
  media_id <$> top_candidates
    [c 1 None; c 2 (Some 2000); c 3 (Some 2013); c 4 (Some 2000);
     c 5 None; c 6 (Some 1999)] = [3; 2; 4; 6; 1].
Proof. reflexivity. Qed.

End TopCandidates.

(** ** Running computations *)

(** Unfold the operations of the monad and compute. *)
Ltac step_m :=
  unfold mbind, mret, M_bind, M_ret, bind, ret, raise, emit, gets, modify,
    lift, try_except in *;
  cbn [res post evs Datatypes.app
       app disk threads after_queue
       directory folders folder_paths folder_candidates selected_candidates
       current_index current_candidates widgets
       disregard_brackets_var override_search_entry dir_label folder_label
       inner_candidates_frame skip_btn
       upd_app set_disk set_threads set_after_queue upd_widgets
       set_directory set_folders set_folder_paths set_folder_candidates
       set_selected_candidates set_current_index set_current_candidates
       set_folder_label set_dir_label set_inner_candidates_frame set_skip_btn
       set_disregard_brackets_var set_override_search_entry] in *.

(** ** The search *)

Section Search.
Context {Σ : Type}.

(** The body of the [try] posts once and touches nothing else. *)
Lemma search_anime_try_effects (query : pystr) (net : http_outcome) (σ : Σ) :
  post (search_anime_try query net σ) = σ ∧
  evs (search_anime_try query net σ) = [EvPost query].
Proof.
  unfold search_anime_try.
  destruct net as [|[] [data|]]; step_m; try done.
  by repeat match goal with
            | |- context [py_get ?a ?k ?d] => destruct (py_get a k d); step_m
            end.
Qed.

Lemma search_anime_outcome (query : pystr) (net : http_outcome) (σ : Σ) :
  ∃ found ev, search_anime query net σ = Outcome (Ret found) σ ev ∧
              requests_of ev = [query] ∧ quiet ev ∧ dialogs_of ev = [].
Proof.
  destruct (search_anime_try_effects query net σ) as [Hpost Hevs].
  unfold search_anime, try_except.
  destruct (search_anime_try query net σ) as [[v|e] σ' ev]; simpl in *;
    subst σ' ev; by eexists _, _.
Qed.

(** C6. Whatever the request meets, [search_anime] posts exactly one
    request, returns a value and never raises, and leaves the state alone.
    When the body of its [try] raises (the post fails, the status is an
    error, the body does not decode, or a [get] is called on something
    that is not a dict) the value is the empty list and the only other
    effect is the printed line. *)
Theorem search_anime_spec (query : pystr) (net : http_outcome) (σ : Σ) :
  let o := search_anime query net σ in
  (∃ v, res o = Ret v) ∧
  post o = σ ∧
  requests_of (evs o) = [query] ∧
  match res (search_anime_try query net σ) with
  | Raise e => res o = Ret (JArr []) ∧
               evs o = [EvPost query; EvPrint (MsgErrorQuerying query)]
  | Ret v => res o = Ret v ∧ evs o = [EvPost query]
  end ∧
  res (search_anime query TransportError σ) = Ret (JArr []) ∧
  (∀ body, res (search_anime query (HttpResponse false body) σ) = Ret (JArr [])) ∧
  res (search_anime query (HttpResponse true None) σ) = Ret (JArr []).
Proof.
  destruct (search_anime_try_effects query net σ) as [Hpost Hevs].
  unfold search_anime, try_except.
  destruct (search_anime_try query net σ) as [[v|e] σ' ev] eqn:Htry;
    simpl in *; subst σ' ev; split_and!; eauto.
Qed.

Example search_anime_null_media (σ : Σ) :
  res (search_anime (py "x")
         (HttpResponse true
            (Some (JObj [(py "data", JObj [(py "Page", JObj [(py "media", JNull)])])])))
         σ) = Ret JNull.
Proof. reflexivity. Qed.

Example search_anime_data_null (σ : Σ) :
  res (search_anime (py "x")
         (HttpResponse true (Some (JObj [(py "data", JNull)]))) σ) = Ret (JArr []).
Proof. reflexivity. Qed.

End Search.

(** ** The controller *)

Section ControllerFacts.
Context `{os : OS}.

Lemma get_new_name_unselected (folder : pystr) (w : World) :
  selected_candidates (app w) !! folder = None →
  get_new_name folder w =
    Outcome (Ret None) w [EvPrint (MsgNoCandidateSelected folder)].
Proof.
  intros Hs. unfold get_new_name, self. step_m. by rewrite Hs.
Qed.

Lemma get_new_name_out_of_range (folder : pystr) (w : World) index l :
  selected_candidates (app w) !! folder = Some index →
  default (Some []) (folder_candidates (app w) !! folder) = Some l →
  (length l ≤ index)%nat →
  get_new_name folder w =
    Outcome (Ret None) w [EvPrint (MsgNoCandidateSelected folder)].
Proof.
  intros Hs Hc Hlen. unfold get_new_name, self. step_m.
  rewrite Hs, Hc. by rewrite decide_True.
Qed.

Lemma get_new_name_selected (folder : pystr) (w : World) index l anime :
  selected_candidates (app w) !! folder = Some index →
  folder_candidates (app w) !! folder = Some (Some l) →
  l !! index = Some anime →
  get_new_name folder w =
    Outcome (Ret (Some (sanitize_filename (display_name anime)))) w
      [EvPrint (MsgWillBeRenamed folder (sanitize_filename (display_name anime)))].
Proof.
  intros Hs Hc Hl. unfold get_new_name, self. step_m.
  rewrite Hs, Hc. simpl.
  rewrite decide_False by (apply lookup_lt_Some in Hl; lia).
  unfold subscript. by rewrite Hl.
Qed.

(** *** [show_current_folder] and [next_folder] *)

Lemma show_current_folder_done (w : World) :
  (length (folders (app w)) ≤ current_index (app w))%nat →
  show_current_folder w =
    Outcome (Ret ())
      (upd_app (upd_widgets (λ x, set_skip_btn false
                 (set_inner_candidates_frame []
                   (set_folder_label LblAllProcessed x)))) w) [].
Proof.
  intros Hlen. unfold show_current_folder, self, widget_set, self_set,
    clear_candidates. step_m. by rewrite decide_True.
Qed.

Lemma show_current_folder_shows (w : World) folder_name :
  folders (app w) !! current_index (app w) = Some folder_name →
  show_current_folder w =
    Outcome (Ret ())
      (set_threads (threads w ++ [folder_name])
        (upd_app (upd_widgets (λ x, set_skip_btn true
                   (set_inner_candidates_frame []
                     (set_folder_label (LblFolder folder_name) x)))) w))
      [EvThreadStart folder_name].
Proof.
  intros Hf. unfold show_current_folder, self, widget_set, self_set,
    clear_candidates, start_thread. step_m.
  rewrite decide_False by (apply lookup_lt_Some in Hf; lia).
  unfold subscript. rewrite Hf. by step_m.
Qed.

(** What [show_current_folder] can change: widgets, and the list of
    threads when it starts one for the folder at the current index. *)
Lemma show_current_folder_summary (w : World) :
  let o := show_current_folder w in
  let started := match folders (app w) !! current_index (app w) with
                 | Some f => [f]
                 | None => []
                 end in
  res o = Ret () ∧
  (∃ f, app (post o) = upd_widgets f (app w)) ∧
  disk (post o) = disk w ∧
  threads (post o) = threads w ++ started ∧
  after_queue (post o) = after_queue w ∧
  threads_of (evs o) = started ∧
  renames_of (evs o) = [] ∧ prints_of (evs o) = [] ∧ dialogs_of (evs o) = [] ∧
  requests_of (evs o) = [].
Proof.
  destruct (folders (app w) !! current_index (app w)) as [f|] eqn:Hf.
  - rewrite (show_current_folder_shows w f Hf). simpl. split_and!; eauto.
  - rewrite show_current_folder_done by (by apply lookup_ge_None).
    simpl. split_and!; eauto. by rewrite app_nil_r.
Qed.

Lemma next_folder_eq (w : World) :
  next_folder w =
    show_current_folder
      (upd_app (λ a, set_current_index (S (current_index a)) a) w).
Proof.
  unfold next_folder, self_set. step_m.
  by destruct (show_current_folder _).
Qed.

Lemma next_folder_summary (w : World) :
  let o := next_folder w in
  let started := match folders (app w) !! S (current_index (app w)) with
                 | Some f => [f]
                 | None => []
                 end in
  res o = Ret () ∧
  (∃ f, app (post o) =
        upd_widgets f (set_current_index (S (current_index (app w))) (app w))) ∧
  disk (post o) = disk w ∧
  threads (post o) = threads w ++ started ∧
  after_queue (post o) = after_queue w ∧
  threads_of (evs o) = started ∧
  renames_of (evs o) = [] ∧ prints_of (evs o) = [] ∧ dialogs_of (evs o) = [] ∧
  requests_of (evs o) = [].
Proof.
  rewrite next_folder_eq.
  apply (show_current_folder_summary
           (upd_app (λ a, set_current_index (S (current_index a)) a) w)).
Qed.

(** *** The rename step *)

Lemma rename_folder_conflict (w : World) folder_name new_name old_path :
  folder_paths (app w) !! folder_name = Some old_path →
  os_path_exists (disk w) (os_path_join (directory (app w)) new_name) = true →
  rename_folder folder_name new_name w =
    Outcome (Ret ()) w [EvDialog (ConflictOnDisk new_name)].
Proof.
  intros Hp He. unfold rename_folder, self, dict_subscript. step_m.
  rewrite Hp. step_m. by rewrite He.
Qed.

Lemma rename_folder_raises (w : World) folder_name new_name old_path :
  folder_paths (app w) !! folder_name = Some old_path →
  os_path_exists (disk w) (os_path_join (directory (app w)) new_name) = false →
  os_rename (disk w) old_path (os_path_join (directory (app w)) new_name) = None →
  rename_folder folder_name new_name w =
    Outcome (Ret ()) w
      [EvRename old_path (os_path_join (directory (app w)) new_name);
       EvDialog (ErrorRenaming folder_name)].
Proof.
  intros Hp He Hr. unfold rename_folder, rename_call, self, dict_subscript.
  step_m. rewrite Hp. step_m. rewrite He. step_m. rewrite Hr. by step_m.
Qed.

Lemma rename_folder_renames (w : World) folder_name new_name old_path d' :
  folder_paths (app w) !! folder_name = Some old_path →
  os_path_exists (disk w) (os_path_join (directory (app w)) new_name) = false →
  os_rename (disk w) old_path (os_path_join (directory (app w)) new_name) = Some d' →
  let o' := next_folder (set_disk d' w) in
  rename_folder folder_name new_name w =
    Outcome (res o') (post o')
      (EvRename old_path (os_path_join (directory (app w)) new_name)
       :: EvPrint (MsgRenamed folder_name new_name) :: evs o').
Proof.
  intros Hp He Hr. unfold rename_folder, rename_call, self, dict_subscript.
  step_m. rewrite Hp. step_m. rewrite He. step_m. rewrite Hr. step_m.
  by destruct (next_folder _).
Qed.

(** C1. In the rename step, with the destination path the directory joined
    with the new name: when that path exists the step shows the conflict
    dialog, calls no rename and leaves the whole state (file system
    included) as it was; when it does not exist, [os.rename] is called
    once; if that call raises, the step shows the error dialog and again
    leaves the whole state as it was; if it succeeds the file system is
    the one the rename produced and the walk moves on by one. *)
Theorem rename_folder_spec (w : World) (folder_name new_name old_path : pystr) :
  folder_paths (app w) !! folder_name = Some old_path →
  let new_path := os_path_join (directory (app w)) new_name in
  let o := rename_folder folder_name new_name w in
  (os_path_exists (disk w) new_path = true →
     res o = Ret () ∧ post o = w ∧
     evs o = [EvDialog (ConflictOnDisk new_name)] ∧ renames_of (evs o) = []) ∧
  (os_path_exists (disk w) new_path = false →
     renames_of (evs o) = [(old_path, new_path)] ∧
     match os_rename (disk w) old_path new_path with
     | None =>
         res o = Ret () ∧ post o = w ∧
         evs o = [EvRename old_path new_path; EvDialog (ErrorRenaming folder_name)]
     | Some d' =>
         res o = Ret () ∧ disk (post o) = d' ∧ dialogs_of (evs o) = [] ∧
         current_index (app (post o)) = S (current_index (app w))
     end).
Proof.
  intros Hp new_path o. subst new_path o. split.
  - intros He. by rewrite (rename_folder_conflict w _ _ _ Hp He).
  - intros He.
    destruct (os_rename (disk w) old_path _) as [d'|] eqn:Hr.
    + rewrite (rename_folder_renames w _ _ _ d' Hp He Hr).
      destruct (next_folder_summary (set_disk d' w))
        as (Hres & [f Happ] & Hdisk & _ & _ & Hth & Hren & Hpr & Hdl & _).
      cbn [res post evs]. split_and!.
      * simpl. by rewrite Hren.
      * done.
      * done.
      * simpl. by rewrite Hdl.
      * by rewrite Happ.
    + by rewrite (rename_folder_raises w _ _ _ Hp He Hr).
Qed.

(** *** [candidate_selected] *)

Lemma candidate_selected_unnamed (w : World) index folder_name ev :
  folders (app w) !! current_index (app w) = Some folder_name →
  (get_new_name folder_name (selection_stored folder_name index w) =
     Outcome (Ret None) (selection_stored folder_name index w) ev ∨
   get_new_name folder_name (selection_stored folder_name index w) =
     Outcome (Ret (Some [])) (selection_stored folder_name index w) ev) →
  candidate_selected index w =
    Outcome (Ret ()) (selection_stored folder_name index w)
      (ev ++ [EvDialog (CouldNotDetermine folder_name)]).
Proof.
  intros Hf Hn. unfold candidate_selected, self, self_set, subscript.
  step_m. rewrite Hf. step_m. fold (selection_stored folder_name index w).
  by destruct Hn as [-> | ->].
Qed.

Lemma candidate_selected_named (w : World) index folder_name ev (new_name : pystr) :
  folders (app w) !! current_index (app w) = Some folder_name →
  get_new_name folder_name (selection_stored folder_name index w) =
    Outcome (Ret (Some new_name)) (selection_stored folder_name index w) ev →
  new_name ≠ [] →
  let o' := rename_folder folder_name new_name
              (selection_stored folder_name index w) in
  candidate_selected index w = Outcome (res o') (post o') (ev ++ evs o').
Proof.
  intros Hf Hn Hne. unfold candidate_selected, self, self_set, subscript.
  step_m. rewrite Hf. step_m. fold (selection_stored folder_name index w).
  rewrite Hn. step_m. destruct new_name; [done|]. simpl.
  by destruct (rename_folder _ _ _).
Qed.

(** A folder with no index recorded gets no new name; and when a list of
    candidates, or nothing at all, is stored for the current folder and the
    user picks an index that is not below its length,
    [candidate_selected] shows the error dialog, calls no rename, leaves
    the file system and the current index as they were: all it changes is
    the recorded index.  (With [None] stored for the folder, [len] raises
    instead, see [pick_on_stored_none].) *)
Lemma candidate_selected_without_valid_selection
    (w : World) (index : nat) (folder_name : pystr) (l : list Candidate) :
  folders (app w) !! current_index (app w) = Some folder_name →
  default (Some []) (folder_candidates (app w) !! folder_name) = Some l →
  (length l ≤ index)%nat →
  let o := candidate_selected index w in
  (∀ w' folder, selected_candidates (app w') !! folder = None →
     res (get_new_name folder w') = Ret None ∧ post (get_new_name folder w') = w') ∧
  res o = Ret () ∧
  dialogs_of (evs o) = [CouldNotDetermine folder_name] ∧
  renames_of (evs o) = [] ∧
  threads_of (evs o) = [] ∧
  post o = selection_stored folder_name index w ∧
  disk (post o) = disk w ∧
  current_index (app (post o)) = current_index (app w).
Proof.
  intros Hf Hc Hlen o. subst o.
  rewrite (candidate_selected_unnamed w index folder_name
             [EvPrint (MsgNoCandidateSelected folder_name)] Hf).
  - split_and!; try done.
    intros w' folder Hs. by rewrite get_new_name_unselected.
  - left. eapply get_new_name_out_of_range; [|exact Hc|exact Hlen].
    simpl. apply lookup_insert_eq.
Qed.

(** C10. When the name built from the picked candidate sanitizes to the
    empty string, [candidate_selected] shows the error dialog, calls no
    rename, and leaves the file system and the current index as they
    were. *)
Theorem candidate_selected_empty_name
    (w : World) (index : nat) (folder_name : pystr) (l : list Candidate)
    (anime : Candidate) :
  folders (app w) !! current_index (app w) = Some folder_name →
  folder_candidates (app w) !! folder_name = Some (Some l) →
  l !! index = Some anime →
  sanitize_filename (display_name anime) = [] →
  let o := candidate_selected index w in
  res o = Ret () ∧
  dialogs_of (evs o) = [CouldNotDetermine folder_name] ∧
  renames_of (evs o) = [] ∧
  threads_of (evs o) = [] ∧
  post o = selection_stored folder_name index w ∧
  disk (post o) = disk w ∧
  current_index (app (post o)) = current_index (app w).
Proof.
  intros Hf Hc Hl Hempty o. subst o.
  rewrite (candidate_selected_unnamed w index folder_name
             [EvPrint (MsgWillBeRenamed folder_name [])] Hf).
  - by split_and!.
  - right. rewrite <- Hempty.
    eapply get_new_name_selected; [|exact Hc|exact Hl].
    simpl. apply lookup_insert_eq.
Qed.

(** C5, as amended.  For a picked candidate, the new name is the English
    title if it is present and not empty, otherwise the romanized title,
    followed by a space and the year in parentheses exactly when the year
    is present and not zero, the whole sanitized; and when that name is
    not empty it is the name the rename step is run with. *)
Theorem candidate_selected_new_name
    (w : World) (index : nat) (folder_name : pystr) (l : list Candidate)
    (anime : Candidate) :
  folders (app w) !! current_index (app w) = Some folder_name →
  folder_candidates (app w) !! folder_name = Some (Some l) →
  l !! index = Some anime →
  let title := match english anime with
               | Some (c :: e) => c :: e
               | Some [] | None => romaji anime
               end in
  let suffix := match year anime with
                | Some y => if decide (y = 0) then []
                            else py " (" ++ str_of_int y ++ py ")"
                | None => []
                end in
  let new_name := sanitize_filename (title ++ suffix) in
  let w1 := selection_stored folder_name index w in
  res (get_new_name folder_name w1) = Ret (Some new_name) ∧
  (new_name ≠ [] →
     res (candidate_selected index w) = res (rename_folder folder_name new_name w1) ∧
     post (candidate_selected index w) = post (rename_folder folder_name new_name w1) ∧
     evs (candidate_selected index w) =
       EvPrint (MsgWillBeRenamed folder_name new_name)
       :: evs (rename_folder folder_name new_name w1)).
Proof.
  intros Hf Hc Hl title suffix new_name w1.
  assert (Hname : display_name anime = title ++ suffix).
  { subst title suffix. unfold display_name, title_of.
    destruct (english anime) as [[|c e]|], (year anime) as [y|]; simpl;
      rewrite ?app_nil_r; try done;
      destruct (Z.eqb_spec y 0); simpl; case_decide; rewrite ?app_nil_r;
      done. }
  assert (Hget : get_new_name folder_name w1 =
                 Outcome (Ret (Some new_name)) w1
                   [EvPrint (MsgWillBeRenamed folder_name new_name)]).
  { subst new_name. rewrite <- Hname.
    eapply get_new_name_selected; [|exact Hc|exact Hl].
    simpl. apply lookup_insert_eq. }
  split; [by rewrite Hget|].
  intros Hne.
  by rewrite (candidate_selected_named w index folder_name _ new_name Hf Hget Hne).
Qed.

(** *** What the effects show, over concatenation *)

Lemma advances_of_app e1 e2 :
  advances_of (e1 ++ e2) = advances_of e1 ++ advances_of e2.
Proof. apply omap_app. Qed.

Lemma threads_of_app e1 e2 : threads_of (e1 ++ e2) = threads_of e1 ++ threads_of e2.
Proof. apply omap_app. Qed.

Lemma renames_of_app e1 e2 : renames_of (e1 ++ e2) = renames_of e1 ++ renames_of e2.
Proof. apply omap_app. Qed.

Lemma dialogs_of_app e1 e2 : dialogs_of (e1 ++ e2) = dialogs_of e1 ++ dialogs_of e2.
Proof. apply omap_app. Qed.

Lemma prints_of_advances e : prints_of e = [] → advances_of e = [].
Proof.
  unfold advances_of, prints_of.
  induction e as [|[[]| | | | | |] t IH]; simpl; try done; by (apply IH).
Qed.

(** *** Stretches of the walk *)

Lemma walked_refl (w : World) : walked w w [].
Proof. unfold walked. simpl. split_and!; [done | lia | done | done]. Qed.

Lemma walked_trans (w w1 w2 : World) e1 e2 :
  walked w w1 e1 → walked w1 w2 e2 → walked w w2 (e1 ++ e2).
Proof.
  unfold walked, advances_of, threads_of.
  intros (Hf1 & Hi1 & Ht1 & Hb1) (Hf2 & Hi2 & Ht2 & Hb2).
  rewrite !omap_app, length_app.
  fold (advances_of e1) (advances_of e2) (threads_of e1) (threads_of e2) in *.
  split_and!.
  - congruence.
  - lia.
  - rewrite Ht1, Ht2, Hf1, Hi1, <- take_take_drop. f_equal. f_equal.
    by rewrite drop_drop.
  - intros Hne. destruct (advances_of e2) as [|m2 l2] eqn:H2.
    + rewrite app_nil_r in Hne. simpl in Hi2.
      rewrite Hi2, Nat.add_0_r. by apply Hb1.
    + rewrite <- Hf1. by apply Hb2.
Qed.

(** A step that changes only widgets, candidates, selections, threads
    that are already started, the queue, and prints nothing that counts. *)
Lemma walked_still (w w' : World) e :
  folders (app w') = folders (app w) →
  current_index (app w') = current_index (app w) →
  advances_of e = [] → threads_of e = [] →
  walked w w' e.
Proof.
  intros Hf Hi Ha Ht. unfold walked. rewrite Ha, Ht. simpl.
  split_and!; [done | lia | done | done].
Qed.

(** One step forward, by a skip or a rename. *)
Lemma walked_next (w : World) (m : message) e folder_name :
  folders (app w) !! current_index (app w) = Some folder_name →
  advances_of e = [m] → threads_of e = [] →
  let o := next_folder w in
  walked w (post o) (e ++ evs o).
Proof.
  intros Hf Ha Ht o.
  destruct (next_folder_summary w)
    as (_ & [f Happ] & _ & _ & _ & Hth & _ & Hpr & _).
  fold o in Happ, Hth, Hpr.
  assert (Hadv : advances_of (evs o) = []) by (by apply prints_of_advances).
  apply lookup_lt_Some in Hf as Hlt.
  unfold walked. unfold advances_of, threads_of in *.
  rewrite !omap_app.
  fold (advances_of e) (advances_of (evs o)) (threads_of e)
       (threads_of (evs o)) in *.
  rewrite Ha, Hadv, Ht, Hth, Happ. simpl. split_and!.
  - done.
  - lia.
  - destruct (folders (app w) !! S (current_index (app w))) as [g|] eqn:Hg.
    + by rewrite (drop_S _ g _ Hg).
    + by rewrite drop_ge by (by apply lookup_ge_None).
  - intros _. lia.
Qed.

(** *** Single steps *)

Lemma quiet_app e1 e2 : quiet e1 → quiet e2 → quiet (e1 ++ e2).
Proof.
  unfold quiet. intros (Ha1 & Ht1 & Hr1) (Ha2 & Ht2 & Hr2).
  by rewrite advances_of_app, threads_of_app, renames_of_app,
       Ha1, Ha2, Ht1, Ht2, Hr1, Hr2.
Qed.

Lemma get_new_name_frame (folder : pystr) (w : World) :
  ∃ r ev, get_new_name folder w = Outcome r w ev ∧ quiet ev.
Proof.
  unfold get_new_name, self, subscript. step_m.
  destruct (selected_candidates (app w) !! folder) as [i|]; step_m;
    [|by eexists _, _].
  destruct (default _ _) as [l|]; step_m; [|by eexists _, _].
  case_decide; step_m; [by eexists _, _|].
  destruct (l !! i); step_m; by eexists _, _.
Qed.

Lemma skip_folder_done (w : World) :
  folders (app w) !! current_index (app w) = None →
  skip_folder w = Outcome (Raise IndexError) w [].
Proof.
  intros Hf. unfold skip_folder, self, subscript. step_m. by rewrite Hf.
Qed.

Lemma skip_folder_skips (w : World) folder_name :
  folders (app w) !! current_index (app w) = Some folder_name →
  let o' := next_folder w in
  skip_folder w =
    Outcome (res o') (post o') (EvPrint (MsgSkipping folder_name) :: evs o').
Proof.
  intros Hf. unfold skip_folder, self, subscript. step_m. rewrite Hf.
  step_m. by destruct (next_folder w).
Qed.

Lemma skip_folder_stepped (w : World) :
  let o := skip_folder w in
  walked w (post o) (evs o) ∧ stepped w (post o) (evs o).
Proof.
  destruct (folders (app w) !! current_index (app w)) as [f|] eqn:Hf.
  - rewrite (skip_folder_skips w f Hf). cbn [post evs].
    destruct (next_folder_summary w)
      as (_ & _ & Hdisk & _ & _ & _ & Hren & Hpr & _).
    split.
    + by apply (walked_next w (MsgSkipping f) [EvPrint (MsgSkipping f)] f).
    + apply (step_skipped _ _ _ f); [done| | |done].
      * change (advances_of ([EvPrint (MsgSkipping f)] ++ evs (next_folder w))
                = [MsgSkipping f]).
        by rewrite advances_of_app, (prints_of_advances _ Hpr).
      * change (renames_of ([EvPrint (MsgSkipping f)] ++ evs (next_folder w)) = []).
        by rewrite renames_of_app, Hren.
  - rewrite (skip_folder_done w Hf). cbn [post evs].
    split; [apply walked_refl | by apply step_still].
Qed.

Lemma rename_folder_unlisted (w : World) folder_name new_name :
  folder_paths (app w) !! folder_name = None →
  rename_folder folder_name new_name w = Outcome (Raise KeyError) w [].
Proof.
  intros Hp. unfold rename_folder, self, dict_subscript. step_m. by rewrite Hp.
Qed.

Lemma rename_folder_stepped (w : World) folder_name new_name :
  folders (app w) !! current_index (app w) = Some folder_name →
  let o := rename_folder folder_name new_name w in
  walked w (post o) (evs o) ∧ stepped w (post o) (evs o).
Proof.
  intros Hf.
  destruct (folder_paths (app w) !! folder_name) as [old_path|] eqn:Hp;
    [|rewrite (rename_folder_unlisted w _ _ Hp); cbn [post evs];
      split; [apply walked_refl | by apply step_still]].
  destruct (os_path_exists (disk w) (os_path_join (directory (app w)) new_name))
    eqn:He.
  { rewrite (rename_folder_conflict w _ _ _ Hp He). cbn [post evs].
    split; [by apply walked_still | by apply step_still]. }
  destruct (os_rename (disk w) old_path
              (os_path_join (directory (app w)) new_name)) as [d'|] eqn:Hr.
  - rewrite (rename_folder_renames w _ _ _ d' Hp He Hr). cbn [post evs].
    destruct (next_folder_summary (set_disk d' w))
      as (_ & _ & Hdisk & _ & _ & _ & Hren & Hpr & _).
    set (e0 := [EvRename old_path (os_path_join (directory (app w)) new_name);
                EvPrint (MsgRenamed folder_name new_name)]).
    change (walked w (post (next_folder (set_disk d' w)))
              (e0 ++ evs (next_folder (set_disk d' w))) ∧
            stepped w (post (next_folder (set_disk d' w)))
              (e0 ++ evs (next_folder (set_disk d' w)))).
    split.
    + exact (walked_next (set_disk d' w) (MsgRenamed folder_name new_name)
               e0 folder_name Hf eq_refl eq_refl).
    + eapply (step_renamed _ _ _ folder_name new_name); [done| | |].
      * by rewrite advances_of_app, (prints_of_advances _ Hpr).
      * by rewrite renames_of_app, Hren.
      * by rewrite Hdisk.
  - rewrite (rename_folder_raises w _ _ _ Hp He Hr). cbn [post evs].
    split; [by apply walked_still|].
    by eapply (step_rename_raised _ _ _ folder_name).
Qed.

Lemma candidate_selected_done (w : World) index :
  folders (app w) !! current_index (app w) = None →
  candidate_selected index w = Outcome (Raise IndexError) w [].
Proof.
  intros Hf. unfold candidate_selected, self, subscript. step_m. by rewrite Hf.
Qed.

Lemma candidate_selected_raises (w : World) index folder_name ev x :
  folders (app w) !! current_index (app w) = Some folder_name →
  get_new_name folder_name (selection_stored folder_name index w) =
    Outcome (Raise x) (selection_stored folder_name index w) ev →
  candidate_selected index w =
    Outcome (Raise x) (selection_stored folder_name index w) ev.
Proof.
  intros Hf Hn. unfold candidate_selected, self, self_set, subscript.
  step_m. rewrite Hf. step_m. fold (selection_stored folder_name index w).
  by rewrite Hn.
Qed.

Lemma candidate_selected_stepped (w : World) index :
  let o := candidate_selected index w in
  walked w (post o) (evs o) ∧ stepped w (post o) (evs o).
Proof.
  destruct (folders (app w) !! current_index (app w)) as [f|] eqn:Hf;
    [|rewrite (candidate_selected_done w _ Hf); cbn [post evs];
      split; [apply walked_refl | by apply step_still]].
  destruct (get_new_name_frame f (selection_stored f index w))
    as (r & ev & Hn & Ha & Ht & Hr).
  destruct r as [[[|c n]|]|x].
  - rewrite (candidate_selected_unnamed w index f ev Hf (or_intror Hn)).
    cbn [post evs]. split.
    + apply walked_still; [done | done | |].
      * by rewrite advances_of_app, Ha.
      * by rewrite threads_of_app, Ht.
    + apply step_still; [| |done].
      * by rewrite advances_of_app, Ha.
      * by rewrite renames_of_app, Hr.
  - rewrite (candidate_selected_named w index f ev (c :: n) Hf Hn ltac:(done)).
    cbn [post evs].
    destruct (rename_folder_stepped (selection_stored f index w) f (c :: n) Hf)
      as [Hw Hs].
    split.
    + apply (walked_trans w (selection_stored f index w)); [|exact Hw].
      by apply walked_still.
    + destruct Hs as [H1 H2 H3|g o n' H0 H1 H2 H3 H4|g H0 H1 H2 H3|g m o n' H0 H1 H2 H3].
      * apply step_still; [by rewrite advances_of_app, Ha, H1
                          |by rewrite renames_of_app, Hr, H2 | done].
      * eapply (step_rename_raised _ _ _ g);
          [done | by rewrite advances_of_app, Ha, H1
          | by rewrite renames_of_app, Hr, H2 | done | done].
      * eapply (step_skipped _ _ _ g);
          [done | by rewrite advances_of_app, Ha, H1
          | by rewrite renames_of_app, Hr, H2 | done].
      * eapply (step_renamed _ _ _ g m);
          [done | by rewrite advances_of_app, Ha, H1
          | by rewrite renames_of_app, Hr, H2 | done].
  - rewrite (candidate_selected_unnamed w index f ev Hf (or_introl Hn)).
    cbn [post evs]. split.
    + apply walked_still; [done | done | |].
      * by rewrite advances_of_app, Ha.
      * by rewrite threads_of_app, Ht.
    + apply step_still; [| |done].
      * by rewrite advances_of_app, Ha.
      * by rewrite renames_of_app, Hr.
  - rewrite (candidate_selected_raises w index f ev x Hf Hn). cbn [post evs].
    split; [by apply walked_still | by apply step_still].
Qed.

(** *** The worker and the display *)

Lemma pack_eq (x : widget) (w : World) :
  pack x w =
    Outcome (Ret ())
      (upd_app (upd_widgets (λ w0, set_inner_candidates_frame
                  (inner_candidates_frame w0 ++ [x]) w0)) w) [].
Proof. reflexivity. Qed.

Lemma for_each_cons {A} (x : A) (t : list A) (body : A → M World unit) :
  for_each (x :: t) body = (body x;; for_each t body).
Proof. reflexivity. Qed.

Lemma for_each_pack (l : list widget) : ∀ w : World,
  for_each l pack w =
    Outcome (Ret ())
      (upd_app (upd_widgets (set_inner_candidates_frame
                  (inner_candidates_frame (widgets (app w)) ++ l))) w) [].
Proof.
  induction l as [|x t IH]; intros w.
  - unfold for_each. simpl. step_m. rewrite app_nil_r.
    by destruct w as [[? ? ? ? ? ? ? []] ? ? ?].
  - rewrite for_each_cons. unfold mbind, M_bind, bind. rewrite pack_eq, IH.
    cbn [app widgets inner_candidates_frame upd_app upd_widgets
         set_inner_candidates_frame]. by rewrite <- app_assoc.
Qed.

(** The frame shows the current candidates, whichever folder they were
    fetched for. *)
Lemma show_candidates_frame (w : World) :
  show_candidates w =
    Outcome (Ret ())
      (upd_app (upd_widgets (set_inner_candidates_frame
                  (frame_for (current_candidates (app w))))) w) [].
Proof.
  unfold show_candidates, clear_candidates, widget_set, self_set, self.
  unfold mbind, M_bind, bind, gets, modify. cbn [app upd_app upd_widgets
    current_candidates].
  destruct (current_candidates (app w)) as [[|c l]|]; rewrite pack_eq;
    [done| |done].
  by rewrite for_each_pack.
Qed.

(** What a finished search writes: the candidates become the current
    ones and those of the folder the search was started for, whatever the
    folder on screen; nothing else of the application object changes. *)
Lemma fetch_candidates_outcome (folder_name : pystr) (net : http_outcome) (w : World) :
  let o := fetch_candidates folder_name net w in
  let query := build_query folder_name
                 (disregard_brackets_var (widgets (app w)))
                 (override_search_entry (widgets (app w))) in
  requests_of (evs o) = [query] ∧ quiet (evs o) ∧ dialogs_of (evs o) = [] ∧
  disk (post o) = disk w ∧ threads (post o) = threads w ∧
  ∃ found, res (search_anime query net w) = Ret found ∧
    match sort_and_cut found with
    | None => res o = Ret None ∧ post o = w
    | Some (Raise x) => res o = Raise x ∧ post o = w
    | Some (Ret candidates) =>
        res o = Ret (Some ()) ∧
        post o =
          set_after_queue (S (after_queue w))
            (upd_app (λ a,
               set_folder_candidates
                 (<[folder_name := candidates]> (folder_candidates a))
                 (set_current_candidates candidates a)) w)
    end.
Proof.
  intros o query. subst o. unfold fetch_candidates, self, self_set. step_m.
  fold query.
  destruct (search_anime_outcome query net w) as (found & ev & Hs & Hreq & Hqev & Hd).
  rewrite Hs. cbn [res post evs].
  destruct (sort_and_cut found) as [[candidates|x]|] eqn:Hrec; step_m.
  - split_and!.
    + unfold requests_of in *. simpl. by rewrite omap_app, Hreq.
    + apply (quiet_app [_] (ev ++ [EvAfter])); [done|].
      by apply quiet_app.
    + change (dialogs_of ([EvPrint (MsgSearching query)] ++ ev ++ [EvAfter]) = []).
      by rewrite !dialogs_of_app, Hd.
    + done.
    + done.
    + exists found. by rewrite Hrec.
  - rewrite ?app_nil_r. split_and!.
    + exact Hreq.
    + by apply (quiet_app [_] ev).
    + change (dialogs_of ([EvPrint (MsgSearching query)] ++ ev) = []).
      by rewrite !dialogs_of_app, Hd.
    + done.
    + done.
    + exists found. by rewrite Hrec.
  - rewrite ?app_nil_r. split_and!.
    + exact Hreq.
    + by apply (quiet_app [_] ev).
    + change (dialogs_of ([EvPrint (MsgSearching query)] ++ ev) = []).
      by rewrite !dialogs_of_app, Hd.
    + done.
    + done.
    + exists found. by rewrite Hrec.
Qed.

(** A step of a worker thread. *)
Lemma act_worker (k : nat) (net : http_outcome) (w w' : World) e :
  act (WorkerRuns k net) w = Some (w', e) →
  ∃ folder_name,
    threads w !! k = Some folder_name ∧
    res (fetch_candidates folder_name net
           (set_threads (delete k (threads w)) w)) ≠ Ret None ∧
    callback (fetch_candidates folder_name net)
      (set_threads (delete k (threads w)) w) = (w', e).
Proof.
  simpl. destruct (threads w !! k) as [folder_name|]; [|done].
  intros Hact. exists folder_name. split; [done|].
  destruct (res (fetch_candidates folder_name net _)) as [[[]|]|x] eqn:Hres;
    [|done|]; by apply (inj Some) in Hact.
Qed.

(** *** Steps of the event loop *)

Lemma walked_more (w w' : World) e e' :
  walked w w' e → advances_of e' = [] → threads_of e' = [] →
  walked w w' (e ++ e').
Proof.
  intros Hw Ha Ht. apply (walked_trans w w' w' e e' Hw).
  by apply walked_still.
Qed.

Lemma stepped_more (w w' : World) e e' :
  stepped w w' e → advances_of e' = [] → renames_of e' = [] →
  stepped w w' (e ++ e').
Proof.
  intros Hs Ha Hr.
  destruct Hs as [H1 H2 H3|g o n' H0 H1 H2 H3 H4|g H0 H1 H2 H3|g m o n' H0 H1 H2 H3].
  - apply step_still; [by rewrite advances_of_app, Ha, H1
                      |by rewrite renames_of_app, Hr, H2 | done].
  - eapply (step_rename_raised _ _ _ g);
      [done | by rewrite advances_of_app, Ha, H1
      | by rewrite renames_of_app, Hr, H2 | done | done].
  - eapply (step_skipped _ _ _ g);
      [done | by rewrite advances_of_app, Ha, H1
      | by rewrite renames_of_app, Hr, H2 | done].
  - eapply (step_renamed _ _ _ g m);
      [done | by rewrite advances_of_app, Ha, H1
      | by rewrite renames_of_app, Hr, H2 | done].
Qed.

Lemma callback_stepped (m : M World unit) (w : World) :
  walked w (post (m w)) (evs (m w)) → stepped w (post (m w)) (evs (m w)) →
  walked w (callback m w).1 (callback m w).2 ∧
  stepped w (callback m w).1 (callback m w).2.
Proof.
  intros Hw Hs. unfold callback. simpl. split.
  - apply walked_more; [done | by destruct (res (m w)) | by destruct (res (m w))].
  - apply stepped_more; [done | by destruct (res (m w)) | by destruct (res (m w))].
Qed.

(** Every step of the walk is of one of the four kinds, and moves the
    index accordingly. *)
Lemma act_stepped (a : action) (w w' : World) e :
  is_walk a → act a w = Some (w', e) → walked w w' e ∧ stepped w w' e.
Proof.
  destruct a as [folder|b|text| |index|k net|]; simpl; intros Hwalk Hact;
    try done.
  - injection Hact as <- <-. split; [by apply walked_still | by apply step_still].
  - injection Hact as <- <-. split; [by apply walked_still | by apply step_still].
  - destruct (skip_btn _); [|done]. apply (inj Some) in Hact.
    destruct (callback_stepped skip_folder w) as [H1 H2];
      [apply skip_folder_stepped.. |].
    by rewrite Hact in H1, H2.
  - destruct (has_button _ _); [|done]. apply (inj Some) in Hact.
    destruct (callback_stepped (candidate_selected index) w) as [H1 H2];
      [apply candidate_selected_stepped.. |].
    by rewrite Hact in H1, H2.
  - apply act_worker in Hact as (folder_name & _ & _ & Hact).
    injection Hact as Hw He.
    set (w0 := set_threads (delete k (threads w)) w) in *.
    destruct (fetch_candidates_outcome folder_name net w0)
      as (_ & (Ha & Ht & Hr) & _ & Hdisk & _ & found & _ & Hpost).
    assert (Hf : folders (app (post (fetch_candidates folder_name net w0)))
                 = folders (app w) ∧
                 current_index (app (post (fetch_candidates folder_name net w0)))
                 = current_index (app w)).
    { destruct (sort_and_cut found) as [[c|x]|]; by destruct Hpost as [_ ->]. }
    destruct Hf as [Hf Hi].
    rewrite <- Hw, <- He. unfold callback. simpl. split.
    + apply walked_more;
        [by apply walked_still | by destruct (res _) | by destruct (res _)].
    + apply stepped_more;
        [by apply step_still | by destruct (res _) | by destruct (res _)].
  - destruct (after_queue w) as [|n]; [done|]. injection Hact as Hw He.
    rewrite <- Hw, <- He. unfold callback. rewrite show_candidates_frame. simpl.
    split; [by apply walked_still | by apply step_still].
Qed.

Lemma run_walked (acts : list action) : ∀ (w w' : World) e,
  Forall is_walk acts → run acts w = Some (w', e) → walked w w' e.
Proof.
  induction acts as [|a rest IH]; simpl; intros w w' e Hall Hrun.
  - injection Hrun as <- <-. apply walked_refl.
  - apply Forall_cons in Hall as [Ha Hrest].
    destruct (act a w) as [[w1 e1]|] eqn:Hact; [|done].
    destruct (run rest w1) as [[w2 e2]|] eqn:Hrest'; [|done].
    injection Hrun as <- <-.
    eapply walked_trans; [by eapply act_stepped | by eapply IH].
Qed.

(** Nothing is done for any folder once the index is past the list. *)
Lemma stepped_at_end (w w' : World) e :
  (length (folders (app w)) ≤ current_index (app w))%nat →
  stepped w w' e →
  advances_of e = [] ∧ renames_of e = [] ∧ disk w' = disk w.
Proof.
  intros Hlen Hs. apply lookup_ge_None in Hlen.
  destruct Hs as [H1 H2 H3|g o n' H0 H1 H2 H3 H4|g H0 H1 H2 H3|g m o n' H0 H1 H2 H3];
    [done | congruence..].
Qed.

(** *** Choosing a directory *)

(** The sub-folders among the entries of a directory, in listing order. *)
Lemma load_folders_loop (dir : pystr) (d : FS) (items : list pystr) : ∀ w : World,
  ∃ fp,
    for_each items (λ item,
      let full_path := os_path_join dir item in
      if os_path_isdir d full_path then
        self_set (λ a, set_folders (folders a ++ [item]) a);;
        self_set (λ a, set_folder_paths (<[item := full_path]> (folder_paths a)) a)
      else mret ()) w
    = Outcome (Ret ())
        (upd_app (λ a, set_folder_paths fp
                   (set_folders
                      (folders (app w) ++
                       List.filter (λ item, os_path_isdir d (os_path_join dir item))
                                   items) a)) w) [].
Proof.
  induction items as [|item rest IH]; intros w.
  - exists (folder_paths (app w)).
    unfold for_each. simpl. step_m. rewrite app_nil_r. by destruct w as [[] ? ? ?].
  - rewrite for_each_cons. unfold mbind at 1, M_bind at 1, bind at 1.
    cbn zeta. cbn [List.filter].
    destruct (os_path_isdir d (os_path_join dir item)).
    + unfold self_set at 1 2. step_m.
      match goal with
      | |- context [for_each rest ?body ?w1] =>
          destruct (IH w1) as (fp & ->)
      end.
      exists fp. step_m. by rewrite <- app_assoc.
    + step_m. destruct (IH w) as (fp & ->). by exists fp.
Qed.

(** [load_folders] lists the sub-folders of the directory; when there are
    some, the walk starts at index 0 with a thread for the first of them. *)
Lemma load_folders_starts (w : World) :
  let o := load_folders w in
  folders (app (post o)) =
    match os_listdir (disk w) (directory (app w)) with
    | Some items =>
        List.filter (λ item, os_path_isdir (disk w)
                               (os_path_join (directory (app w)) item)) items
    | None => []
    end ∧
  (folders (app (post o)) ≠ [] →
   current_index (app (post o)) = 0%nat ∧
   threads_of (evs o) = take 1 (folders (app (post o))) ∧
   advances_of (evs o) = [] ∧ renames_of (evs o) = []).
Proof.
  unfold load_folders.
  pose proof (load_folders_loop (directory (app w)) (disk w)) as Hloop.
  unfold self, self_set in *. step_m.
  destruct (os_listdir (disk w) (directory (app w))) as [items|]; step_m;
    [|by split].
  match goal with
  | |- context [for_each items _ ?w1] =>
      destruct (Hloop items w1) as (fp & ->)
  end.
  step_m.
  destruct (List.filter _ items) as [|f fl]; step_m; [by split|].
  match goal with
  | |- context [show_current_folder ?w1] =>
      rewrite (show_current_folder_shows w1 f eq_refl)
  end.
  by split.
Qed.

Lemma select_directory_chosen (folder : pystr) (w : World) :
  folder ≠ [] →
  select_directory folder w =
    load_folders
      (upd_app (upd_widgets (set_dir_label (Some folder)))
         (upd_app (set_directory folder) w)).
Proof.
  intros Hne. destruct folder as [|c folder]; [done|].
  unfold select_directory, widget_set, self_set. cbn [str_truthy]. step_m.
  by destruct (load_folders _).
Qed.

Lemma select_directory_starts (folder : pystr) (w0 w1 : World) e1 :
  act (SelectDirectory folder) w0 = Some (w1, e1) →
  folder ≠ [] →
  folders (app w1) =
    match os_listdir (disk w0) folder with
    | Some items =>
        List.filter (λ item, os_path_isdir (disk w0) (os_path_join folder item)) items
    | None => []
    end ∧
  (folders (app w1) ≠ [] →
   current_index (app w1) = 0%nat ∧
   threads_of e1 = take 1 (folders (app w1)) ∧
   advances_of e1 = [] ∧ renames_of e1 = []).
Proof.
  simpl. intros Hact Hne. apply (inj Some) in Hact. revert Hact.
  unfold callback. rewrite (select_directory_chosen folder w0 Hne).
  match goal with
  | |- context [load_folders ?w'] =>
      pose proof (load_folders_starts w') as Hl;
      destruct (load_folders w') as [r p e]
  end.
  cbn [res post evs] in *. step_m. intros Hact.
  assert (Hp : p = w1) by (by injection Hact).
  assert (He : e1 = e ++ match r with Ret _ => [] | Raise x => [EvTraceback x] end)
    by (by injection Hact).
  subst p. destruct Hl as [Hlist Hl]. split; [done|]. intros Hfl.
  destruct (Hl Hfl) as (Hi & Ht & Ha & Hr). rewrite He.
  rewrite threads_of_app, advances_of_app, renames_of_app, Ht, Ha, Hr.
  by destruct r; rewrite app_nil_r.
Qed.

(** C7. After a directory with sub-folders is chosen, the folders are the
    entries of the directory that are directories, in listing order, and the
    current index is 0; along any sequence of later actions other than the
    choice of a directory the list of folders stays the same, the index is
    the number of skips and successful renames so far and never exceeds the
    number of folders, and the folders a search thread was started for are
    the first [index + 1] folders of the list, in listing order: all of
    them, each once, when the index has reached the number of folders.  Each
    single action moves the index by the number of skips and successful
    renames it makes, which is at most one; a skip with a folder left
    makes one, and so does a rename that returns.  Once the index has
    reached the number of folders, no action moves it, changes the file
    system, calls a rename or starts a thread. *)
Theorem walk_visits_each_folder_once
    (w0 w1 w2 : World) (folder : pystr) (e1 e2 : list event)
    (acts : list action) :
  act (SelectDirectory folder) w0 = Some (w1, e1) →
  folder ≠ [] →
  folders (app w1) ≠ [] →
  Forall is_walk acts →
  run acts w1 = Some (w2, e2) →
  (∀ items, os_listdir (disk w0) folder = Some items →
     folders (app w1) =
       List.filter (λ item, os_path_isdir (disk w0) (os_path_join folder item))
                   items) ∧
  current_index (app w1) = 0%nat ∧
  folders (app w2) = folders (app w1) ∧
  current_index (app w2) = length (advances_of e2) ∧
  (current_index (app w2) ≤ length (folders (app w1)))%nat ∧
  threads_of (e1 ++ e2) =
    take (S (current_index (app w2))) (folders (app w1)) ∧
  (current_index (app w2) = length (folders (app w1)) →
     threads_of (e1 ++ e2) = folders (app w1)) ∧
  (∀ a (w w' : World) e, is_walk a → act a w = Some (w', e) →
     current_index (app w') =
       (current_index (app w) + length (advances_of e))%nat ∧
     (length (advances_of e) ≤ 1)%nat ∧
     (current_index (app w) ≤ current_index (app w'))%nat ∧
     (a = ClickSkip →
        (current_index (app w) < length (folders (app w)))%nat →
        current_index (app w') = S (current_index (app w))) ∧
     (∀ old_path new_path d',
        renames_of e = [(old_path, new_path)] →
        os_rename (disk w) old_path new_path = Some d' →
        current_index (app w') = S (current_index (app w)) ∧ disk w' = d') ∧
     ((length (folders (app w)) ≤ current_index (app w))%nat →
        current_index (app w') = current_index (app w) ∧
        disk w' = disk w ∧ renames_of e = [] ∧ threads_of e = [])).
Proof.
  intros Hsel Hne Hfl Hall Hrun.
  destruct (select_directory_starts folder w0 w1 e1 Hsel Hne) as [Hlist Hstart].
  destruct (Hstart Hfl) as (Hi0 & Ht1 & Ha1 & Hr1).
  destruct (run_walked acts w1 w2 e2 Hall Hrun) as (Hf & Hi & Ht & Hb).
  rewrite Hi0 in Hi, Ht. simpl in Hi.
  assert (Hle : (current_index (app w2) ≤ length (folders (app w1)))%nat).
  { destruct (advances_of e2) as [|m l] eqn:Ha2; [simpl in Hi; lia|].
    by apply Hb. }
  assert (Hvis : threads_of (e1 ++ e2) =
                 take (S (current_index (app w2))) (folders (app w1))).
  { rewrite threads_of_app, Ht1, Ht, <- Hi.
    by rewrite (take_take_drop _ 1 (current_index (app w2))). }
  split_and!; try done.
  - intros items Hitems. by rewrite Hlist, Hitems.
  - intros Hend. rewrite Hvis. apply take_ge. lia.
  - intros a w w' e Hwalk Hact.
    destruct (act_stepped a w w' e Hwalk Hact) as [(Hf' & Hi' & Ht' & _) Hs].
    split_and!.
    + done.
    + destruct Hs as [H1 H2 H3|g o n' H0 H1 H2 H3 H4|g H0 H1 H2 H3|g m o n' H0 H1 H2 H3];
        rewrite H1; simpl; lia.
    + lia.
    + intros -> Hlt. simpl in Hact.
      destruct (skip_btn _); [|done]. apply (inj Some) in Hact.
      destruct (lookup_lt_is_Some_2 _ _ Hlt) as [f Hf0].
      revert Hact. unfold callback. rewrite (skip_folder_skips w f Hf0).
      cbn [res post evs]. intros Hact.
      destruct (next_folder_summary w) as (_ & [fw Happ] & _).
      assert (Hw' : w' = post (next_folder w)) by (by injection Hact).
      by rewrite Hw', Happ.
    + intros old_path new_path d' Hren Hos.
      destruct Hs as [H1 H2 H3|g o n' H0 H1 H2 H3 H4|g H0 H1 H2 H3|g m o n' H0 H1 H2 H3];
        try congruence.
      rewrite H1 in Hi'. simpl in Hi'. split; [lia | congruence].
    + intros Hend. destruct (stepped_at_end w w' e Hend Hs) as (Ha & Hr & Hd).
      rewrite Ha in Hi', Ht'. simpl in *. split_and!; [lia | done | done | done].
Qed.

End ControllerFacts.

(** ** The model at work *)

Section Witnesses.
Import DirTree Sample.

Lemma sanitize_filename_spec_witness :
  sanitize_filename (py "  Re:Zero? <x> | a/b  ") = py "ReZero x  ab" ∧
  sanitize_filename (py "ReZero x  ab") = py "ReZero x  ab".
Proof.
  split; [reflexivity|].
  change (py "ReZero x  ab") with (sanitize_filename (py "  Re:Zero? <x> | a/b  ")).
  apply (sanitize_filename_spec (py "  Re:Zero? <x> | a/b  ")).
Defined.

Lemma top_candidates_spec_witness :
  (∃ s, top_candidates [example_show; empty_english] = take 5 s ∧
        s ≡ₚ [example_show; empty_english]) ∧
  (top_candidates [example_show; empty_english] !! 0%nat = Some empty_english →
   top_candidates [example_show; empty_english] !! 1%nat = Some example_show →
   year empty_english = None → year example_show = None).
Proof.
  destruct (top_candidates_spec [example_show; empty_english])
    as (s & H1 & H2 & _ & _ & _ & _ & _ & H).
  split; [by exists s|].
  apply (H ltac:(intros c y [->|[->|[]%elem_of_nil]%elem_of_cons]%elem_of_cons;
                 vm_compute; by intros [= <-])
           0%nat 1%nat empty_english example_show). lia.
Defined.

Lemma search_anime_spec_witness :
  res (search_anime (py "Alpha") TransportError start) = Ret (JArr []) ∧
  requests_of (evs (search_anime (py "Alpha") answer_alpha start))
    = [py "Alpha"].
Proof.
  split.
  - apply (search_anime_spec (py "Alpha") TransportError start).
  - apply (search_anime_spec (py "Alpha") answer_alpha start).
Defined.

(** The three outcomes of the rename step: the target exists; the call
    raises because the folder has gone; the call returns. *)
Lemma rename_folder_spec_witness :
  post (rename_folder beta (py "Beta (2001)") beta_listed) = beta_listed ∧
  post (rename_folder alpha (py "Alpha (1999)") alpha_gone) = alpha_gone ∧
  disk (post (rename_folder alpha (py "Alpha (1999)") alpha_listed)) =
    [py "/lib"; py "/lib/Alpha (1999)"; py "/lib/Beta (2001)";
     py "/lib/Alpha (1999)/ep1"].
Proof.
  split_and!.
  - destruct (rename_folder_spec beta_listed beta (py "Beta (2001)")
                (py "/lib/Beta (2001)") eq_refl) as [H _].
    by destruct (H eq_refl) as (_ & ? & _).
  - destruct (rename_folder_spec alpha_gone alpha (py "Alpha (1999)")
                (py "/lib/Alpha [BD]") eq_refl) as [_ H].
    destruct (H eq_refl) as [_ H']. vm_compute os_rename in H'.
    by destruct H' as (_ & ? & _).
  - destruct (rename_folder_spec alpha_listed alpha (py "Alpha (1999)")
                (py "/lib/Alpha [BD]") eq_refl) as [_ H].
    destruct (H eq_refl) as [_ H']. vm_compute os_rename in H'.
    by destruct H' as (_ & ? & _).
Defined.

Lemma candidate_selected_new_name_witness :
  res (get_new_name alpha (selection_stored alpha 1 alpha_listed)) =
    Ret (Some (py "Alpha (1999)")) ∧
  post (candidate_selected 1 alpha_listed) =
    post (rename_folder alpha (py "Alpha (1999)")
            (selection_stored alpha 1 alpha_listed)).
Proof.
  destruct (candidate_selected_new_name alpha_listed 1 alpha
              [ {| media_id := 2; english := Some (py "Alpha II");
                   romaji := py "Arufa 2"; year := Some 2005 |};
                {| media_id := 1; english := Some (py "Alpha");
                   romaji := py "Arufa"; year := Some 1999 |} ]
              {| media_id := 1; english := Some (py "Alpha");
                 romaji := py "Arufa"; year := Some 1999 |}
              eq_refl eq_refl eq_refl) as [H1 H2].
  split; [exact H1|].
  by destruct (H2 ltac:(by vm_compute)) as (_ & ? & _).
Defined.

(** C5 as stated fails for a year that is present and zero: no suffix is
    added; for an English title that is present and empty: the romanized
    title is used; and a name that is empty is not passed on to any
    rename. *)
Lemma new_name_differs_from_specified :
  folder_candidates (app year_zero_listed) !! alpha = Some (Some [year_zero]) ∧
  res (get_new_name alpha (selection_stored alpha 0 year_zero_listed)) =
    Ret (Some (py "Example Show")) ∧
  new_name_as_specified year_zero = py "Example Show (0)" ∧
  sanitize_filename (display_name empty_english) = py "Rei (2013)" ∧
  new_name_as_specified empty_english = py "(2013)" ∧
  res (get_new_name alpha (selection_stored alpha 0 unnameable_listed)) =
    Ret (Some []) ∧
  renames_of (evs (candidate_selected 0 unnameable_listed)) = [].
Proof. by vm_compute. Qed.

Lemma candidate_selected_empty_name_witness :
  dialogs_of (evs (candidate_selected 0 unnameable_listed)) =
    [CouldNotDetermine alpha] ∧
  renames_of (evs (candidate_selected 0 unnameable_listed)) = [].
Proof.
  destruct (candidate_selected_empty_name unnameable_listed 0 alpha
              [ {| media_id := 4; english := Some (py " ?*? ");
                   romaji := py "Hatena"; year := None |} ]
              {| media_id := 4; english := Some (py " ?*? ");
                 romaji := py "Hatena"; year := None |}
              eq_refl eq_refl eq_refl eq_refl) as (_ & Hd & Hr & _).
  by rewrite Hd, Hr.
Defined.

Lemma walk_visits_each_folder_once_witness :
  threads_of (effects [SelectDirectory (py "/lib")] ++
              effects_from shown whole_walk) = [alpha; beta].
Proof.
  destruct (walk_visits_each_folder_once start shown
              (after (SelectDirectory (py "/lib") :: whole_walk))
              (py "/lib") (effects [SelectDirectory (py "/lib")])
              (effects_from shown whole_walk) whole_walk)
    as (_ & _ & _ & _ & _ & _ & H & _).
  - by vm_compute.
  - done.
  - by vm_compute.
  - repeat constructor.
  - by vm_compute.
  - apply H. by vm_compute.
Defined.

(** C9.  The claim fails on the code: nothing records which search is in
    flight, and a late answer is not discarded.  The user skips the first
    folder before its search is answered; the search for the second folder
    is answered; then the one for the first.  The second folder is still
    the current one and the label names it, its own candidates are stored
    under its name, but the current candidates and the buttons on screen
    are those of the first folder.  Pressing the first button, which reads
    'Alpha II (2005)', asks to rename the second folder to its own first
    candidate, 'Beta (2001)'; pressing the second, for which the second
    folder has no candidate, ends in the error dialog. *)
Lemma late_answer_is_not_discarded :
  let w := after late_answer in
  folders (app w) !! current_index (app w) = Some beta ∧
  folder_label (widgets (app w)) = LblFolder beta ∧
  folder_candidates (app w) !! beta =
    Some (Some [ {| media_id := 3; english := Some (py "Beta");
                    romaji := py "Beeta"; year := Some 2001 |} ]) ∧
  current_candidates (app w) = default None (folder_candidates (app w) !! alpha) ∧
  current_candidates (app w) =
    Some [ {| media_id := 2; english := Some (py "Alpha II");
              romaji := py "Arufa 2"; year := Some 2005 |};
           {| media_id := 1; english := Some (py "Alpha");
              romaji := py "Arufa"; year := Some 1999 |} ] ∧
  inner_candidates_frame (widgets (app w)) =
    [WSelectMatching; WButton (py "Alpha II (2005)") 0;
     WButton (py "Alpha (1999)") 1] ∧
  dialogs_of (effects_from w [ClickCandidate 0]) =
    [ConflictOnDisk (py "Beta (2001)")] ∧
  dialogs_of (effects_from w [ClickCandidate 1]) = [CouldNotDetermine beta].
Proof. by vm_compute. Qed.

(** C8.  The claim fails on the code.  As in [late_answer], but the search
    for the second folder is answered with a null media list, so that
    [None] is stored for it while the buttons of the first folder come on
    screen.  No index is recorded for the second folder, the current one,
    and it has no candidate list for an index to be in range of.  Pressing
    a button raises [TypeError] in [get_new_name], at [len(candidates)]:
    the default of [self.folder_candidates.get(folder, [])] does not
    apply to a key that is there.  No dialog is shown; there is no rename
    and the index stays, and the index pressed is recorded. *)
Lemma pick_on_stored_none :
  let w := after late_answer_after_null in
  folders (app w) !! current_index (app w) = Some beta ∧
  selected_candidates (app w) !! beta = None ∧
  folder_candidates (app w) !! beta = Some None ∧
  has_button 0 w = true ∧
  act (ClickCandidate 0) w =
    Some (selection_stored beta 0 w, [EvTraceback TypeError]).
Proof. by vm_compute. Qed.

End Witnesses.

(** * Further properties *)

(** ** Names that sanitize to nothing *)

Section EmptyNames.

Lemma lstrip_nil_iff s : lstrip s = [] ↔ ∀ c, c ∈ s → is_space c = true.
Proof.
  induction s as [|a t IH]; simpl.
  - split; [by intros _ c ?%elem_of_nil | done].
  - destruct (is_space a) eqn:Ha.
    + rewrite IH. split.
      * intros H c [->|Hc]%elem_of_cons; [done | by apply H].
      * intros H c Hc. apply H. by right.
    + split; [done|]. intros H. specialize (H a ltac:(left)). congruence.
Qed.

Lemma rstrip_nil_iff s : rstrip s = [] ↔ ∀ c, c ∈ s → is_space c = true.
Proof.
  induction s as [|a t IH]; simpl.
  - split; [by intros _ c ?%elem_of_nil | done].
  - destruct (rstrip t) as [|b r] eqn:Hr.
    + destruct (is_space a) eqn:Ha.
      * split; [|done]. intros _ c [->|Hc]%elem_of_cons; [done|].
        by apply (proj1 IH).
      * split; [done|]. intros H. specialize (H a ltac:(left)). congruence.
    + split; [done|]. intros H.
      assert (b :: r = []); [|done]. apply IH. intros c Hc. apply H. by right.
Qed.

Lemma strip_nil_iff s : strip s = [] ↔ ∀ c, c ∈ s → is_space c = true.
Proof.
  unfold strip. rewrite rstrip_nil_iff. split.
  - intros H. apply lstrip_nil_iff.
    destruct (lstrip s) as [|a t] eqn:Hl; [done|].
    assert (Ha : is_space a = false) by (apply (lstrip_head s); by rewrite Hl).
    specialize (H a ltac:(left)). congruence.
  - intros H c Hc. apply H. eapply elem_of_sublist; [done | apply lstrip_sublist].
Qed.

(** X1. A name is sanitized to the empty string exactly when each of its
    characters is one of the nine invalid characters or a whitespace
    character. *)
Theorem sanitize_filename_empty_iff (name : pystr) :
  sanitize_filename name = [] ↔
  ∀ c, c ∈ name → c ∈ invalid ∨ is_space c = true.
Proof.
  unfold sanitize_filename. rewrite strip_nil_iff. split.
  - intros H c Hc. destruct (decide (c ∈ invalid)) as [|Hn]; [by left|].
    right. apply H. by apply removed_elem_of.
  - intros H c [Hc Hn]%removed_elem_of. by destruct (H c Hc).
Qed.

End EmptyNames.

(** ** Removing the spans twice *)

Section SpansAgain.

Lemma lazy_close_sublist t rest : lazy_close t = Some rest → rest `sublist_of` t.
Proof.
  revert rest. induction t as [|a t IH]; simpl; intros rest; [done|].
  destruct (is_close a); [intros [= <-]; by apply sublist_cons|].
  destruct (is_dot a); [|done].
  intros H. by apply sublist_cons, IH.
Qed.

Lemma re_sub_spans_sublist s : re_sub_spans s `sublist_of` s.
Proof.
  remember (length s) as n eqn:Hn.
  revert s Hn. induction (lt_wf n) as [n _ IH]. intros s ->.
  destruct s as [|c t]; [by simp re_sub_spans|].
  rewrite re_sub_spans_cons.
  destruct (match_span (c :: t)) as [rest|] eqn:Hm.
  - assert (Hsub : rest `sublist_of` c :: t).
    { simpl in Hm. destruct (is_open c); [|done].
      by apply sublist_cons, lazy_close_sublist. }
    etrans; [|exact Hsub].
    eapply IH; [|done]. apply match_span_Some in Hm as [body Hs].
    by eapply span_at_shorter.
  - apply sublist_skip. eapply IH; [|done]. simpl. lia.
Qed.

(** Where no closing character comes before the end of the line, none does
    after the spans further on are removed. *)
Lemma lazy_close_None_re_sub t :
  lazy_close t = None → lazy_close (re_sub_spans t) = None.
Proof.
  induction t as [|c t IH]; simpl; [by simp re_sub_spans|].
  destruct (is_close c) eqn:Hc; [done|].
  destruct (is_dot c) eqn:Hd.
  - intros Hn. rewrite re_sub_spans_cons. simpl. rewrite Hn.
    destruct (is_open c); simpl; rewrite Hc, Hd; by apply IH.
  - intros _. rewrite re_sub_spans_cons. simpl.
    assert (Ho : is_open c = false).
    { unfold is_dot in Hd. apply negb_false_iff, N.eqb_eq in Hd. by subst c. }
    rewrite Ho. simpl. by rewrite Hc, Hd.
Qed.

(** X2. What [re.sub] returns for the bracket pattern is a subsequence of
    its argument in which the pattern matches nowhere any more: applying
    the substitution again changes nothing. *)
Theorem re_sub_spans_idempotent (s : pystr) :
  re_sub_spans s `sublist_of` s ∧
  re_sub_spans (re_sub_spans s) = re_sub_spans s.
Proof.
  split; [apply re_sub_spans_sublist|].
  remember (length s) as n eqn:Hn.
  revert s Hn. induction (lt_wf n) as [n _ IH]. intros s ->.
  destruct s as [|c t]; [by simp re_sub_spans|].
  rewrite re_sub_spans_cons.
  destruct (match_span (c :: t)) as [rest|] eqn:Hm.
  - eapply IH; [|done]. apply match_span_Some in Hm as [body Hs].
    by eapply span_at_shorter.
  - rewrite re_sub_spans_cons.
    assert (Hm' : match_span (c :: re_sub_spans t) = None).
    { simpl in *. destruct (is_open c); [|done]. by apply lazy_close_None_re_sub. }
    rewrite Hm'. f_equal. eapply IH; [|done]. simpl. lia.
Qed.

End SpansAgain.

(** ** The cut of the candidates *)

Section TopAgain.

Lemma insert_desc_front {A} (key : A → Z) x l :
  Forall (λ y, key y ≤ key x) l → insert_desc key x l = x :: l.
Proof.
  destruct l as [|y t]; simpl; [done|].
  intros [Hy _]%Forall_cons. by rewrite (proj2 (Z.ltb_ge _ _) Hy).
Qed.

Lemma sorted_reverse_fixed {A} (key : A → Z) l :
  StronglySorted (key_ge key) l → sorted_reverse key l = l.
Proof.
  induction 1 as [|x t Ht IH Hx]; simpl; [done|].
  rewrite IH. by apply insert_desc_front.
Qed.

(** X3. Sorting and cutting what was already sorted and cut changes
    nothing. *)
Theorem top_candidates_idempotent (candidates : list Candidate) :
  top_candidates (top_candidates candidates) = top_candidates candidates.
Proof.
  destruct candidates as [|c l]; [done|].
  set (s := sorted_reverse year_key (c :: l)).
  change (top_candidates (c :: l)) with (take 5 s).
  assert (Hs : StronglySorted (key_ge year_key) (take 5 s)).
  { apply StronglySorted_take, sorted_reverse_sorted. }
  destruct (take 5 s) as [|a t] eqn:Ht; [done|].
  change (top_candidates (a :: t)) with (take 5 (sorted_reverse year_key (a :: t))).
  rewrite (sorted_reverse_fixed _ _ Hs), <- Ht. apply take_take.
Qed.

(** X4. The candidates kept and those cut make up the candidates found;
    [min 5 n] of [n] are kept; and no candidate that is cut has a greater
    key (a later year) than one that is kept. *)
Theorem top_candidates_keeps_latest (candidates : list Candidate) :
  ∃ cut,
    candidates ≡ₚ top_candidates candidates ++ cut ∧
    length (top_candidates candidates) = (5 `min` length candidates)%nat ∧
    ∀ a b, a ∈ top_candidates candidates → b ∈ cut → year_key b ≤ year_key a.
Proof.
  set (s := sorted_reverse year_key candidates).
  assert (Htop : top_candidates candidates = take 5 s) by (by destruct candidates).
  exists (drop 5 s). rewrite Htop. split_and!.
  - rewrite take_drop. subst s. by rewrite sorted_reverse_perm.
  - rewrite length_take. subst s. by rewrite sorted_reverse_perm.
  - intros a b Ha Hb.
    pose proof (sorted_reverse_sorted year_key candidates) as Hs.
    fold s in Hs. rewrite <- (take_drop 5 s) in Hs.
    apply StronglySorted_app in Hs as (H & _ & _). by apply H.
Qed.

End TopAgain.

(** ** What a search returns *)

Section SearchAgain.
Context {Σ : Type}.

(** X5. [search_anime] returns something other than the empty list only when
    the request was answered with an accepted status and a body that decodes
    to an object whose [data] is an object, whose [Page] in it is an object,
    and whose [media] in that is the value returned; nothing is printed
    then. *)
Theorem search_anime_returns_media (query : pystr) (net : http_outcome)
    (σ : Σ) (v : json) :
  res (search_anime query net σ) = Ret v →
  v ≠ JArr [] →
  ∃ fields d p,
    net = HttpResponse true (Some (JObj fields)) ∧
    dict_lookup (py "data") fields = Some (JObj d) ∧
    dict_lookup (py "Page") d = Some (JObj p) ∧
    dict_lookup (py "media") p = Some v ∧
    evs (search_anime query net σ) = [EvPost query].
Proof.
  unfold search_anime, search_anime_try, py_get.
  destruct net as [|[] [[| | | | |fields]|]]; step_m; try (by intros [= <-]).
  destruct (dict_lookup (py "data") fields) as [[| | | | |d]|] eqn:Hd; step_m;
    try (by intros [= <-]).
  destruct (dict_lookup (py "Page") d) as [[| | | | |p]|] eqn:Hp; step_m;
    try (by intros [= <-]).
  destruct (dict_lookup (py "media") p) as [m|] eqn:Hm; step_m;
    [|by intros [= <-]].
  intros [= <-] _. by exists fields, d, p.
Qed.

End SearchAgain.

(** ** Callbacks, one by one *)

Section CallbackFacts.
Context `{os : OS}.

Lemma exns_of_app e1 e2 : exns_of (e1 ++ e2) = exns_of e1 ++ exns_of e2.
Proof. apply omap_app. Qed.

Lemma requests_of_app e1 e2 : requests_of (e1 ++ e2) = requests_of e1 ++ requests_of e2.
Proof. apply omap_app. Qed.

Lemma show_current_folder_step (w : World) : main_step w (show_current_folder w).
Proof.
  unfold main_step, kept.
  destruct (folders (app w) !! current_index (app w)) as [f|] eqn:Hf.
  - rewrite (show_current_folder_shows w f Hf). simpl.
    split_and!; try done; [|by left].
    right. unfold settled. simpl. by rewrite Hf.
  - rewrite show_current_folder_done by (by apply lookup_ge_None). simpl.
    split_and!; try done; [by rewrite app_nil_r | | by left].
    right. unfold settled. simpl. by rewrite Hf.
Qed.

Lemma next_folder_step (w : World) : main_step w (next_folder w).
Proof.
  rewrite next_folder_eq.
  set (w1 := upd_app (λ a, set_current_index (S (current_index a)) a) w).
  destruct (show_current_folder_step w1) as (Hk & Ht & Hr & Hx & Hs & Hres).
  assert (Hset : settled (app (post (show_current_folder w1)))).
  { destruct (folders (app w1) !! current_index (app w1)) as [f|] eqn:Hf.
    - rewrite (show_current_folder_shows w1 f Hf). unfold settled. simpl.
      simpl in Hf. by rewrite Hf.
    - rewrite show_current_folder_done by (by apply lookup_ge_None).
      unfold settled. simpl. simpl in Hf. by rewrite Hf. }
  assert (Hret : res (show_current_folder w1) = Ret ())
    by apply show_current_folder_summary.
  unfold main_step. split_and!; try done; first [by right | by left].
Qed.

Lemma next_folder_settled (w : World) : settled (app (post (next_folder w))).
Proof.
  destruct (next_folder_step w) as (_ & _ & _ & _ & [(Hi & _)|Hs] & _); [|done].
  destruct (next_folder_summary w) as (_ & [g Hg] & _).
  rewrite Hg in Hi. simpl in Hi. lia.
Qed.

(** A callback that changes at most the selections. *)
Lemma main_step_still (w w' : World) (r : result unit) e :
  app w' = app w ∨
  (∃ f i, app w' = set_selected_candidates
                     (<[f := i]> (selected_candidates (app w))) (app w)) →
  threads w' = threads w →
  threads_of e = [] → requests_of e = [] → exns_of e = [] →
  r = Ret () ∨ r = Raise IndexError ∨ r = Raise TypeError ∨
    (r = Raise KeyError ∧
     ∃ f, folders (app w) !! current_index (app w) = Some f ∧
          folder_paths (app w) !! f = None) →
  main_step w (Outcome r w' e).
Proof.
  intros Happ Hth Ht Hr Hx Hres. unfold main_step, kept. cbn [res post evs].
  rewrite Ht, app_nil_r.
  destruct Happ as [->|(f & i & ->)]; split_and!; try done; by left.
Qed.

Lemma skip_folder_step (w : World) : main_step w (skip_folder w).
Proof.
  destruct (folders (app w) !! current_index (app w)) as [f|] eqn:Hf.
  - rewrite (skip_folder_skips w f Hf).
    destruct (next_folder_step w) as (Hk & Ht & Hr & Hx & _ & Hres).
    pose proof (next_folder_settled w) as Hs.
    destruct (next_folder_summary w) as (Hret & _).
    unfold main_step. cbn [res post evs].
    split_and!; try done; first [by right | by left].
  - rewrite (skip_folder_done w Hf).
    apply main_step_still; [by left | done | done | done | done | by right; left].
Qed.

Lemma rename_folder_step (w : World) folder_name new_name :
  folders (app w) !! current_index (app w) = Some folder_name →
  main_step w (rename_folder folder_name new_name w).
Proof.
  intros Hf.
  destruct (folder_paths (app w) !! folder_name) as [old_path|] eqn:Hp.
  2: { rewrite (rename_folder_unlisted w _ _ Hp).
       apply main_step_still; [by left | done | done | done | done |].
       right; right; right. split; [done|]. by exists folder_name. }
  destruct (os_path_exists (disk w) (os_path_join (directory (app w)) new_name))
    eqn:He.
  { rewrite (rename_folder_conflict w _ _ _ Hp He).
    apply main_step_still; [by left | done | done | done | done | by left]. }
  destruct (os_rename (disk w) old_path
              (os_path_join (directory (app w)) new_name)) as [d'|] eqn:Hr.
  - rewrite (rename_folder_renames w _ _ _ d' Hp He Hr).
    destruct (next_folder_step (set_disk d' w)) as (Hk & Ht & Hq & Hx & _ & Hres).
    pose proof (next_folder_settled (set_disk d' w)) as Hs.
    destruct (next_folder_summary (set_disk d' w)) as (Hret & _).
    unfold main_step. cbn [res post evs].
    split_and!; try done; first [by right | by left].
  - rewrite (rename_folder_raises w _ _ _ Hp He Hr).
    apply main_step_still; [by left | done | done | done | done | by left].
Qed.

(** What [get_new_name] can end in. *)
Lemma get_new_name_results (folder : pystr) (w : World) :
  ∃ r ev, get_new_name folder w = Outcome r w ev ∧
          threads_of ev = [] ∧ requests_of ev = [] ∧ exns_of ev = [] ∧
          ((∃ n, r = Ret n) ∨ r = Raise TypeError ∨ r = Raise IndexError).
Proof.
  unfold get_new_name, self, subscript. step_m.
  destruct (selected_candidates (app w) !! folder) as [i|]; step_m;
    [|eexists _, _; split_and!; try done; left; by eexists].
  destruct (default _ _) as [l|]; step_m;
    [|eexists _, _; split_and!; try done; by right; left].
  case_decide; step_m; [eexists _, _; split_and!; try done; left; by eexists|].
  destruct (l !! i); step_m; eexists _, _; split_and!; try done;
    [left; by eexists | by right; right].
Qed.

Lemma candidate_selected_step (w : World) index :
  main_step w (candidate_selected index w).
Proof.
  destruct (folders (app w) !! current_index (app w)) as [f|] eqn:Hf.
  2: { rewrite (candidate_selected_done w _ Hf).
       apply main_step_still;
         [by left | done | done | done | done | by right; left]. }
  destruct (get_new_name_results f (selection_stored f index w))
    as (r & ev & Hn & Ht & Hq & Hx & Hr).
  assert (Hsel : ∃ g i, app (selection_stored f index w) =
                   set_selected_candidates
                     (<[g := i]> (selected_candidates (app w))) (app w))
    by (by exists f, index).
  destruct r as [[[|c n]|]|x].
  - rewrite (candidate_selected_unnamed w index f ev Hf (or_intror Hn)).
    apply main_step_still; [by right | done | | | | by left].
    + by rewrite threads_of_app, Ht.
    + by rewrite requests_of_app, Hq.
    + by rewrite exns_of_app, Hx.
  - rewrite (candidate_selected_named w index f ev (c :: n) Hf Hn ltac:(done)).
    destruct (rename_folder_step (selection_stored f index w) f (c :: n) Hf)
      as (Hk & Hth & Hrq & Hxx & Hs & Hres).
    unfold main_step. cbn [res post evs].
    rewrite threads_of_app, requests_of_app, exns_of_app, Ht, Hq, Hx.
    by split_and!.
  - rewrite (candidate_selected_unnamed w index f ev Hf (or_introl Hn)).
    apply main_step_still; [by right | done | | | | by left].
    + by rewrite threads_of_app, Ht.
    + by rewrite requests_of_app, Hq.
    + by rewrite exns_of_app, Hx.
  - rewrite (candidate_selected_raises w index f ev x Hf Hn).
    apply main_step_still; [by right | done | done | done | done |].
    destruct Hr as [[n ?]|[[= ->]|[= ->]]];
      [done | by right; right; left | by right; left].
Qed.

Lemma show_candidates_step (w : World) : main_step w (show_candidates w).
Proof.
  rewrite show_candidates_frame. unfold main_step, kept. simpl.
  split_and!; try done; [by rewrite app_nil_r | by left | by left].
Qed.

End CallbackFacts.

(** ** Listing a directory *)

Section ListingFacts.
Context `{os : OS}.

Lemma paths_of_lookup (d : FS) (dir : pystr) (items : list pystr) :
  ∀ (paths : gmap pystr pystr) item,
    paths_of d dir items paths !! item =
      if decide (item ∈ List.filter
                   (λ item, os_path_isdir d (os_path_join dir item)) items)
      then Some (os_path_join dir item)
      else paths !! item.
Proof.
  induction items as [|x rest IH]; intros paths item; simpl; [done|].
  rewrite IH.
  destruct (os_path_isdir d (os_path_join dir x)) eqn:Hx; [|done].
  destruct (decide (item = x)) as [->|Hne].
  - rewrite lookup_insert_eq. rewrite (decide_True (P := x ∈ x :: _)) by left.
    by case_decide.
  - rewrite lookup_insert_ne by done.
    repeat case_decide; try done; exfalso;
      match goal with
      | H : _ ∈ _ :: _ |- _ => apply elem_of_cons in H as [?|?]; done
      | H : ¬ _ ∈ _ :: _ |- _ => apply H; by right
      end.
Qed.

Lemma load_folders_loop_exact (dir : pystr) (d : FS) (items : list pystr) :
  ∀ w : World,
    for_each items (λ item,
      let full_path := os_path_join dir item in
      if os_path_isdir d full_path then
        self_set (λ a, set_folders (folders a ++ [item]) a);;
        self_set (λ a, set_folder_paths (<[item := full_path]> (folder_paths a)) a)
      else mret ()) w
    = Outcome (Ret ())
        (upd_app (λ a, set_folder_paths
                         (paths_of d dir items (folder_paths (app w)))
                   (set_folders
                      (folders (app w) ++
                       List.filter (λ item, os_path_isdir d (os_path_join dir item))
                                   items) a)) w) [].
Proof.
  induction items as [|item rest IH]; intros w.
  - unfold for_each, paths_of. simpl. step_m. rewrite app_nil_r.
    by destruct w as [[] ? ? ?].
  - rewrite for_each_cons. unfold mbind at 1, M_bind at 1, bind at 1.
    cbn zeta. unfold paths_of. cbn [List.filter foldl].
    destruct (os_path_isdir d (os_path_join dir item)).
    + unfold self_set at 1 2. step_m. rewrite IH. step_m.
      unfold paths_of. by rewrite <- app_assoc.
    + step_m. by rewrite IH.
Qed.

(** The three ways [load_folders] ends. *)
Lemma load_folders_exact (w : World) :
  load_folders w =
    match os_listdir (disk w) (directory (app w)) with
    | None =>
        Outcome (Raise OSError)
          (upd_app (λ a, set_folder_paths ∅ (set_folders [] a)) w) []
    | Some items =>
        let fl := List.filter (λ item, os_path_isdir (disk w)
                    (os_path_join (directory (app w)) item)) items in
        let w1 := upd_app (λ a, set_folder_paths
                    (paths_of (disk w) (directory (app w)) items ∅)
                    (set_folders fl a)) w in
        match fl with
        | [] => Outcome (Ret ()) w1 [EvDialog NoFolders]
        | _ :: _ =>
            show_current_folder
              (upd_app (λ a, set_folder_candidates ∅
                         (set_selected_candidates ∅ (set_current_index 0 a))) w1)
        end
    end.
Proof.
  unfold load_folders.
  pose proof (load_folders_loop_exact (directory (app w)) (disk w)) as Hloop.
  unfold self, self_set in *. step_m.
  destruct (os_listdir (disk w) (directory (app w))) as [items|]; step_m;
    [|done].
  rewrite Hloop. step_m.
  destruct (List.filter _ items) as [|f fl]; step_m; [done|].
  by destruct (show_current_folder _).
Qed.

(** After [load_folders], [folder_paths] goes with [folders]. *)
Lemma load_folders_listed (w : World) : listed (app (post (load_folders w))).
Proof.
  rewrite load_folders_exact.
  destruct (os_listdir (disk w) (directory (app w))) as [items|].
  - cbn zeta.
    set (fl := List.filter _ items).
    assert (Hl : ∀ w1 : World,
              folders (app w1) = fl →
              folder_paths (app w1) = paths_of (disk w) (directory (app w)) items ∅ →
              directory (app w1) = directory (app w) → listed (app w1)).
    { intros w1 H1 H2 H3 item. rewrite H1, H2, H3, paths_of_lookup. fold fl.
      by case_decide. }
    destruct fl as [|f fl'] eqn:Hfl.
    + by apply Hl.
    + match goal with
      | |- context [show_current_folder ?w1] =>
          destruct (show_current_folder_step w1) as ((H1 & H2 & H3 & _) & _)
      end.
      apply Hl; [by rewrite H2 | by rewrite H3 | by rewrite H1].
  - by intros item.
Qed.

End ListingFacts.

(** ** Every step of the program *)

Section StepFacts.
Context `{os : OS}.

Lemma select_directory_cancelled (w : World) :
  select_directory [] w = Outcome (Ret ()) w [].
Proof. reflexivity. Qed.

Lemma select_directory_step (folder : pystr) (w : World) :
  folder ≠ [] →
  let o := select_directory folder w in
  listed (app (post o)) ∧
  override_search_entry (widgets (app (post o))) =
    override_search_entry (widgets (app w)) ∧
  disregard_brackets_var (widgets (app (post o))) =
    disregard_brackets_var (widgets (app w)) ∧
  threads (post o) = threads w ++ threads_of (evs o) ∧
  requests_of (evs o) = [] ∧ exns_of (evs o) = [] ∧
  (res o = Ret () ∨ res o = Raise OSError) ∧
  (folders (app (post o)) ≠ [] → settled (app (post o))).
Proof.
  intros Hne o. subst o. rewrite (select_directory_chosen folder w Hne).
  set (w1 := upd_app (upd_widgets (set_dir_label (Some folder)))
               (upd_app (set_directory folder) w)).
  split; [apply load_folders_listed|].
  rewrite load_folders_exact.
  destruct (os_listdir (disk w1) (directory (app w1))) as [items|];
    [|simpl; split_and!; try done; [by rewrite app_nil_r | by right]].
  cbn zeta. destruct (List.filter _ items) as [|f fl].
  { simpl. split_and!; try done; [by rewrite app_nil_r | by left]. }
  match goal with
  | |- context [show_current_folder ?w2] =>
      destruct (show_current_folder_step w2)
        as ((_ & _ & _ & Ho & Hd) & Ht & Hq & Hx & Hs & _);
      pose proof (proj1 (show_current_folder_summary w2)) as Hret;
      assert (Hset : settled (app (post (show_current_folder w2))))
  end.
  { match goal with
    | |- context [show_current_folder ?w2] =>
        rewrite (show_current_folder_shows w2 f eq_refl)
    end.
    unfold settled. by simpl. }
  split_and!; try done. by left.
Qed.

Lemma search_anime_events {Σ} (query : pystr) (net : http_outcome) (σ : Σ) :
  ∃ found ev, search_anime query net σ = Outcome (Ret found) σ ev ∧
              (ev = [EvPost query] ∨
               ev = [EvPost query; EvPrint (MsgErrorQuerying query)]).
Proof.
  destruct (search_anime_try_effects query net σ) as [Hpost Hevs].
  unfold search_anime, try_except.
  destruct (search_anime_try query net σ) as [[v|e] σ' ev]; simpl in *;
    subst σ' ev; eexists _, _; split; eauto.
Qed.

Lemma sort_keys_raises (items : list json) (x : exn) :
  sort_keys items = Raise x →
  x = TypeError ∨ x = KeyError ∨ x = AttributeError.
Proof.
  induction items as [|anime rest IH]; simpl; [done|].
  destruct (year_of_json anime) as [y|x'] eqn:Hy.
  - destruct (sort_keys rest); [done|]. intros [= ->]. by apply IH.
  - intros [= <-]. unfold year_of_json in Hy.
    destruct anime as [| | | | |fields]; try (injection Hy as <-; by left).
    destruct (dict_lookup _ fields) as [[| | | | |]|]; try done;
      injection Hy as <-; auto.
Qed.

Lemma sort_and_cut_raises (found : json) (x : exn) :
  sort_and_cut found = Some (Raise x) →
  x = TypeError ∨ x = KeyError ∨ x = AttributeError.
Proof.
  unfold sort_and_cut. destruct (json_truthy found); [|done].
  destruct found as [| | | |items|]; try (intros [= <-]; by left).
  destruct (sort_keys items) as [ys|x'] eqn:Hk.
  - by destruct (mapM record_of_json items).
  - intros [= <-]. by eapply sort_keys_raises.
Qed.

(** What a worker thread does to the world. *)
Lemma fetch_candidates_step (folder_name : pystr) (net : http_outcome) (w : World) :
  let o := fetch_candidates folder_name net w in
  kept (app w) (app (post o)) ∧
  current_index (app (post o)) = current_index (app w) ∧
  folder_label (widgets (app (post o))) = folder_label (widgets (app w)) ∧
  skip_btn (widgets (app (post o))) = skip_btn (widgets (app w)) ∧
  threads (post o) = threads w ∧
  threads_of (evs o) = [] ∧ exns_of (evs o) = [] ∧
  requests_of (evs o) =
    [build_query folder_name (disregard_brackets_var (widgets (app w)))
       (override_search_entry (widgets (app w)))] ∧
  (∀ x, res o = Raise x →
     x = TypeError ∨ x = KeyError ∨ x = AttributeError).
Proof.
  intros o. subst o. unfold fetch_candidates, self, self_set, kept. step_m.
  match goal with
  | |- context [search_anime ?q net w] =>
      destruct (search_anime_events q net w) as (found & ev & -> & Hev)
  end.
  step_m.
  pose proof (sort_and_cut_raises found) as Hrec.
  destruct (sort_and_cut found) as [[c|x]|] eqn:Hc; step_m.
  - destruct Hev as [-> | ->]; simpl; split_and!; done.
  - destruct Hev as [-> | ->]; simpl; split_and!; try done;
      intros x' [= <-]; by apply Hrec.
  - destruct Hev as [-> | ->]; simpl; split_and!; done.
Qed.

Lemma settled_same (a a' : Wizard) :
  folders a' = folders a → current_index a' = current_index a →
  folder_label (widgets a') = folder_label (widgets a) →
  skip_btn (widgets a') = skip_btn (widgets a) →
  settled a → settled a'.
Proof. unfold settled. by intros -> -> -> ->. Qed.

Lemma listed_kept (a a' : Wizard) : kept a a' → listed a → listed a'.
Proof. unfold listed. by intros (-> & -> & -> & _). Qed.

Lemma callback_facts (a : action) (m : M World unit) (w : World) :
  main_step w (m w) →
  step_facts a w (callback m w).1 (callback m w).2.
Proof.
  intros ((Hd & Hf & Hp & Ho & Hc) & Ht & Hq & Hx & Hs & Hres).
  unfold callback, step_facts. cbn [fst snd].
  rewrite requests_of_app, threads_of_app, Hq.
  assert (Htb : ∀ r : result unit,
            requests_of (match r with Ret _ => [] | Raise x => [EvTraceback x] end) = [] ∧
            threads_of (match r with Ret _ => [] | Raise x => [EvTraceback x] end) = [])
    by (by intros []).
  destruct (Htb (res (m w))) as [-> ->]. rewrite app_nil_r.
  split_and!.
  - rewrite Ht, !length_app. simpl. lia.
  - intros Hl. split; [by apply (listed_kept (app w))|].
    intros x. rewrite exns_of_app, Hx. simpl.
    destruct Hres as [->|[->|[->|(-> & f & Hf1 & Hf2)]]]; simpl.
    + by intros ?%elem_of_nil.
    + by intros ->%list_elem_of_singleton.
    + by intros ->%list_elem_of_singleton.
    + exfalso. rewrite (Hl f) in Hf2.
      rewrite decide_True in Hf2 by (by eapply list_elem_of_lookup_2). done.
  - intros _. split_and!; [done | done |]. by intros q ?%elem_of_nil.
  - intros _. split; [done|].
    intros Hset. destruct Hs as [(Hi & Hl & Hk & _)|Hs]; [|done].
    by apply (settled_same (app w)).
Qed.

Lemma act_facts (a : action) (w w' : World) e :
  act a w = Some (w', e) → step_facts a w w' e.
Proof.
  destruct a as [folder|b|text| |index|k net|]; simpl; intros Hact.
  - apply (inj Some) in Hact.
    destruct folder as [|c folder].
    { unfold callback in Hact. rewrite select_directory_cancelled in Hact.
      injection Hact as <- <-. unfold step_facts. simpl.
      split_and!; try done.
      - intros Hl. split; [done|]. by intros x ?%elem_of_nil.
      - intros _. split_and!; [done | done |]. by intros q ?%elem_of_nil. }
    destruct (select_directory_step (c :: folder) w ltac:(done))
      as (Hl & Ho & Hd & Ht & Hq & Hx & Hres & _).
    assert (Hw : w' = post (select_directory (c :: folder) w))
      by (by injection Hact).
    assert (He : e = evs (select_directory (c :: folder) w) ++
                     match res (select_directory (c :: folder) w) with
                     | Ret _ => []
                     | Raise x => [EvTraceback x]
                     end) by (by injection Hact).
    unfold step_facts. rewrite Hw, He, requests_of_app, threads_of_app, Hq.
    split_and!.
    + rewrite Ht, length_app.
      destruct (res _); simpl; rewrite ?app_nil_r; lia.
    + intros _. split; [done|]. intros x. rewrite exns_of_app, Hx. simpl.
      destruct Hres as [-> | ->]; simpl.
      * by intros ?%elem_of_nil.
      * by intros ->%list_elem_of_singleton.
    + intros _. split_and!; [done | done |].
      destruct (res _); by intros q ?%elem_of_nil.
    + done.
  - injection Hact as <- <-. unfold step_facts. simpl.
    split_and!; try done; try (by intros Hn; destruct Hn);
      try (intros Hl; split; [done|]; by intros x ?%elem_of_nil).
  - injection Hact as <- <-. unfold step_facts. simpl.
    split_and!; try done; try (by intros Hn; destruct Hn);
      try (intros Hl; split; [done|]; by intros x ?%elem_of_nil).
  - destruct (skip_btn _); [|done]. apply (inj Some) in Hact.
    pose proof (callback_facts ClickSkip skip_folder w (skip_folder_step w)) as H.
    by rewrite Hact in H.
  - destruct (has_button _ _); [|done]. apply (inj Some) in Hact.
    pose proof (callback_facts (ClickCandidate index) (candidate_selected index) w
                  (candidate_selected_step w index)) as H.
    by rewrite Hact in H.
  - apply act_worker in Hact as (folder_name & Hk & _ & Hact).
    unfold callback in Hact.
    set (w0 := set_threads (delete k (threads w)) w) in *.
    destruct (fetch_candidates_step folder_name net w0)
      as (Hkept & Hi & Hl & Hs & Ht & Hth & Hx & Hq & Hres).
    assert (Hw : w' = post (fetch_candidates folder_name net w0))
      by (by injection Hact).
    assert (He : e = evs (fetch_candidates folder_name net w0) ++
                     match res (fetch_candidates folder_name net w0) with
                     | Ret _ => []
                     | Raise x => [EvTraceback x]
                     end) by (by injection Hact).
    unfold step_facts. rewrite Hw, He, requests_of_app, threads_of_app, Hq, Hth.
    assert (Htb : requests_of (match res (fetch_candidates folder_name net w0) with
                               | Ret _ => []
                               | Raise x => [EvTraceback x]
                               end) = [] ∧
                  threads_of (match res (fetch_candidates folder_name net w0) with
                              | Ret _ => []
                              | Raise x => [EvTraceback x]
                              end) = []) by (by destruct (res _)).
    destruct Htb as [-> ->]. split_and!.
    + rewrite Ht. simpl. rewrite length_delete by (by eexists).
      apply lookup_lt_Some in Hk. lia.
    + intros Hlist. split; [by apply (listed_kept (app w))|].
      intros x. rewrite exns_of_app, Hx. simpl.
      destruct (res (fetch_candidates folder_name net w0)) as [?|x'];
        simpl; [by intros ?%elem_of_nil|].
      intros ->%list_elem_of_singleton.
      by destruct (Hres x' eq_refl) as [->|[->| ->]].
    + intros _. destruct Hkept as (_ & _ & _ & Ho & Hd). split_and!; [done | done |].
      intros q ->%list_elem_of_singleton. by exists folder_name.
    + intros _. destruct Hkept as (_ & Hf & _). split; [done|].
      intros Hset. by apply (settled_same (app w)).
  - destruct (after_queue w) as [|n]; [done|]. apply (inj Some) in Hact.
    pose proof (callback_facts AfterIdle show_candidates (set_after_queue n w)
                  (show_candidates_step (set_after_queue n w))) as H.
    by rewrite Hact in H.
Qed.

End StepFacts.

(** ** Every run of the program *)

Section RunFacts.
Context `{os : OS}.

Lemma initial_listed (d : FS) : listed (app (initial d)).
Proof.
  intros item. simpl. by rewrite lookup_empty.
Qed.

Lemma run_cons_inv (a : action) (rest : list action) (w w' : World) e :
  run (a :: rest) w = Some (w', e) →
  ∃ w1 e1 e2, act a w = Some (w1, e1) ∧ run rest w1 = Some (w', e2) ∧
              e = e1 ++ e2.
Proof.
  simpl. destruct (act a w) as [[w1 e1]|]; [|done].
  destruct (run rest w1) as [[w2 e2]|] eqn:Hrest; [|done].
  intros [= <- <-]. by exists w1, e1, e2.
Qed.

Lemma build_query_override (folder_name : pystr) (disregard : bool)
    (override_entry : pystr) :
  strip override_entry ≠ [] →
  build_query folder_name disregard override_entry = strip override_entry.
Proof. unfold build_query. cbn zeta. by destruct (strip override_entry). Qed.

(** Listing a directory leaves the label and the skip button with the
    index, or leaves no folder at all. *)
Lemma act_settled (a : action) (w w' : World) e :
  act a w = Some (w', e) →
  folders (app w) = [] ∨ settled (app w) →
  folders (app w') = [] ∨ settled (app w').
Proof.
  intros Hact Hinv.
  assert (Hwalk : is_walk a → folders (app w') = [] ∨ settled (app w')).
  { intros Hw. destruct (act_facts a w w' e Hact) as (_ & _ & _ & Hk).
    destruct (Hk Hw) as [Hf Hs]. rewrite Hf.
    destruct Hinv as [?|?]; [by left | right; by apply Hs]. }
  destruct a as [folder| | | | | |]; try (by apply Hwalk).
  simpl in Hact. apply (inj Some) in Hact.
  destruct folder as [|c folder].
  - unfold callback in Hact. rewrite select_directory_cancelled in Hact.
    by injection Hact as <- <-.
  - destruct (select_directory_step (c :: folder) w ltac:(done))
      as (_ & _ & _ & _ & _ & _ & _ & Hs).
    assert (Hw' : w' = post (select_directory (c :: folder) w))
      by (by injection Hact).
    rewrite Hw'.
    destruct (folders (app (post (select_directory (c :: folder) w))))
      eqn:Hf; [by left|].
    right. apply Hs. by rewrite ?Hf.
Qed.

Lemma run_settled (acts : list action) : ∀ (w w' : World) e,
  run acts w = Some (w', e) →
  folders (app w) = [] ∨ settled (app w) →
  folders (app w') = [] ∨ settled (app w').
Proof.
  induction acts as [|a rest IH]; intros w w' e Hrun Hinv.
  - by injection Hrun as <- <-.
  - apply run_cons_inv in Hrun as (w1 & e1 & e2 & Hact & Hrest & ->).
    eapply IH; [done|]. by eapply act_settled.
Qed.

(** X6. Every request to the service is made by a worker thread that
    [show_current_folder] started, and each thread makes exactly one: after
    any sequence of events, the threads still waiting and the requests made
    add up to the threads waiting at the beginning and the threads started
    since.  From the start of the program, no more requests are made than
    threads were started. *)
Theorem requests_match_threads (acts : list action) (w w' : World) e :
  run acts w = Some (w', e) →
  (length (threads w') + length (requests_of e) =
   length (threads w) + length (threads_of e))%nat ∧
  (threads w = [] → (length (requests_of e) ≤ length (threads_of e))%nat).
Proof.
  revert w w' e.
  assert (H : ∀ w w' e, run acts w = Some (w', e) →
            (length (threads w') + length (requests_of e) =
             length (threads w) + length (threads_of e))%nat).
  { induction acts as [|a rest IH]; intros w w' e Hrun.
    - by injection Hrun as <- <-.
    - apply run_cons_inv in Hrun as (w1 & e1 & e2 & Hact & Hrest & ->).
      destruct (act_facts a w w1 e1 Hact) as (Ha & _).
      specialize (IH _ _ _ Hrest).
      rewrite requests_of_app, threads_of_app, !length_app. lia. }
  intros w w' e Hrun. specialize (H _ _ _ Hrun). split; [done|].
  intros Hnil. rewrite Hnil in H. simpl in H. lia.
Qed.

Lemma rename_folder_returns (w : World) (folder_name new_name old_path : pystr) :
  folder_paths (app w) !! folder_name = Some old_path →
  res (rename_folder folder_name new_name w) = Ret ().
Proof.
  intros Hp.
  destruct (os_path_exists (disk w) (os_path_join (directory (app w)) new_name))
    eqn:Hex; [by rewrite (rename_folder_conflict w _ _ old_path Hp Hex)|].
  destruct (os_rename (disk w) old_path
              (os_path_join (directory (app w)) new_name)) as [d'|] eqn:Hrn;
    [|by rewrite (rename_folder_raises w _ _ old_path Hp Hex Hrn)].
  rewrite (rename_folder_renames w _ _ old_path d' Hp Hex Hrn). cbn zeta.
  cbn [res]. apply next_folder_summary.
Qed.

(** X7. From the start of the program and after any sequence of events,
    [folder_paths] has exactly the names of [folders] as keys, each with
    the directory joined with the name as its value.  So the subscript
    [self.folder_paths[folder_name]] of [candidate_selected] never raises
    [KeyError]: whatever candidate is picked and whatever the new name, the
    part of [candidate_selected] from that subscript on returns.  And no
    error of the request or of its decoding reaches the event loop or ends
    a thread. *)
Theorem folder_paths_follow_folders (d : FS) (acts : list action) (w' : World) e :
  run acts (initial d) = Some (w', e) →
  listed (app w') ∧
  (∀ folder_name index new_name,
     folders (app w') !! current_index (app w') = Some folder_name →
     folder_paths (app w') !! folder_name =
       Some (os_path_join (directory (app w')) folder_name) ∧
     res (rename_folder folder_name new_name
            (selection_stored folder_name index w')) = Ret ()) ∧
  (∀ x, x ∈ exns_of e →
     x ≠ RequestException ∧ x ≠ HTTPError ∧ x ≠ JSONDecodeError).
Proof.
  intros Hrun.
  assert (H : listed (app w') ∧
              ∀ x, x ∈ exns_of e →
                x ≠ RequestException ∧ x ≠ HTTPError ∧ x ≠ JSONDecodeError).
  { pose proof (initial_listed d) as Hl. revert Hl Hrun.
    generalize (initial d). intros w Hl Hrun. revert w w' e Hl Hrun.
    induction acts as [|a rest IH]; intros w w' e Hl Hrun.
    - injection Hrun as <- <-. split; [done|]. by intros x ?%elem_of_nil.
    - apply run_cons_inv in Hrun as (w1 & e1 & e2 & Hact & Hrest & ->).
      destruct (act_facts a w w1 e1 Hact) as (_ & Hb & _).
      destruct (Hb Hl) as [Hl1 Hx1].
      destruct (IH _ _ _ Hl1 Hrest) as [Hl2 Hx2].
      split; [done|]. intros x. rewrite exns_of_app, elem_of_app.
      intros [?|?]; auto. }
  destruct H as [Hl Hx]. split_and!; [done | |].
  - intros folder_name index new_name Hf.
    assert (Hp : folder_paths (app w') !! folder_name =
                 Some (os_path_join (directory (app w')) folder_name)).
    { rewrite (Hl folder_name).
      rewrite decide_True; [done|]. by eapply list_elem_of_lookup_2. }
    split; [done|]. by eapply rename_folder_returns.
  - done.
Qed.

(** X8. From the start of the program and after any sequence of events, if
    the list of folders is not empty then the label and the skip button go
    with the current index: with a folder at the index, the label names it
    and the button is enabled; past the end of the list, the label says
    that all folders are processed and the button is disabled.  So the
    skip button can be pressed exactly while a folder is current. *)
Theorem skip_button_follows_index (d : FS) (acts : list action) (w' : World) e :
  run acts (initial d) = Some (w', e) →
  folders (app w') ≠ [] →
  settled (app w') ∧
  (is_Some (act ClickSkip w') ↔
   (current_index (app w') < length (folders (app w')))%nat).
Proof.
  intros Hrun Hne.
  destruct (run_settled acts (initial d) w' e Hrun) as [?|Hs];
    [by left | done |].
  split; [done|]. simpl. unfold settled in Hs. rewrite <- lookup_lt_is_Some.
  destruct (folders (app w') !! current_index (app w')) as [f|];
    destruct Hs as [_ ->]; split; intros [x Hx]; by eauto.
Qed.

(** X9. Choosing a directory that cannot be listed, or one without
    sub-folders, empties [folders] and [folder_paths] and touches nothing
    else but the directory and its label: the index, the folder label, the
    skip button, the candidate buttons, the selections and the candidates
    found stay as they were.  A skip button or a candidate button that was
    there can still be pressed, and pressing it raises [IndexError] and
    changes nothing. *)
Theorem directory_without_folders (folder : pystr) (w : World) :
  folder ≠ [] →
  let w1 := upd_app (λ a, set_folder_paths ∅ (set_folders [] a))
              (upd_app (upd_widgets (set_dir_label (Some folder)))
                 (upd_app (set_directory folder) w)) in
  (os_listdir (disk w) folder = None →
   act (SelectDirectory folder) w = Some (w1, [EvTraceback OSError])) ∧
  (∀ items, os_listdir (disk w) folder = Some items →
     (∀ item, item ∈ items →
        os_path_isdir (disk w) (os_path_join folder item) = false) →
     act (SelectDirectory folder) w = Some (w1, [EvDialog NoFolders])) ∧
  (skip_btn (widgets (app w)) = true →
   act ClickSkip w1 = Some (w1, [EvTraceback IndexError])) ∧
  (∀ index, has_button index w = true →
     act (ClickCandidate index) w1 = Some (w1, [EvTraceback IndexError])).
Proof.
  intros Hne w1. split_and!.
  - intros Hls. simpl. unfold callback.
    rewrite (select_directory_chosen folder w Hne), load_folders_exact.
    simpl. by rewrite Hls.
  - intros items Hls Hdir. simpl. unfold callback.
    rewrite (select_directory_chosen folder w Hne), load_folders_exact.
    simpl. rewrite Hls. cbn zeta.
    assert (Hfl : List.filter (λ item, os_path_isdir (disk w)
                    (os_path_join folder item)) items = []).
    { clear Hls. induction items as [|i items IH]; [done|]. simpl.
      rewrite (Hdir i) by (by left). apply IH. intros item Hin.
      apply Hdir. by right. }
    assert (Hp : paths_of (disk w) folder items ∅ = ∅).
    { apply map_eq. intros item. rewrite paths_of_lookup, Hfl.
      rewrite decide_False; [done|]. by intros ?%elem_of_nil. }
    rewrite Hfl, Hp. done.
  - intros Hs. simpl. subst w1. simpl. rewrite Hs. unfold callback.
    by rewrite skip_folder_done.
  - intros index Hb. simpl.
    assert (Hb1 : has_button index w1 = true) by done.
    rewrite Hb1. unfold callback. by rewrite candidate_selected_done.
Qed.

(** X10. While the user edits neither the checkbox nor the override entry,
    no step of the program changes them; and with an override that is not
    blank, every request made in that time asks for the override without
    the white space around it, whatever the folder. *)
Theorem override_decides_every_query (acts : list action) (w w' : World) e :
  run acts w = Some (w', e) →
  Forall (λ a, ¬ is_edit a) acts →
  override_search_entry (widgets (app w')) =
    override_search_entry (widgets (app w)) ∧
  disregard_brackets_var (widgets (app w')) =
    disregard_brackets_var (widgets (app w)) ∧
  (strip (override_search_entry (widgets (app w))) ≠ [] →
   ∀ q, q ∈ requests_of e →
     q = strip (override_search_entry (widgets (app w)))).
Proof.
  revert w w' e. induction acts as [|a rest IH]; intros w w' e Hrun Hed.
  - injection Hrun as <- <-. split_and!; try done. by intros _ q ?%elem_of_nil.
  - apply run_cons_inv in Hrun as (w1 & e1 & e2 & Hact & Hrest & ->).
    apply Forall_cons in Hed as [Ha Hed].
    destruct (act_facts a w w1 e1 Hact) as (_ & _ & Hc & _).
    destruct (Hc Ha) as (Ho & Hd & Hq).
    destruct (IH _ _ _ Hrest Hed) as (Ho' & Hd' & Hq').
    rewrite Ho, Hd in *. split_and!; try done.
    intros Hne q. rewrite requests_of_app, elem_of_app. intros [Hin|Hin].
    + destruct (Hq q Hin) as [f ->]. by apply build_query_override.
    + by apply Hq'.
Qed.

(** X11. What [show_candidates] draws: there is a button with the text
    [text] that calls [candidate_selected] with [index] exactly when the
    current candidates have, at [index], a candidate whose display text is
    [text]; so the index of a button is the position of its candidate, and
    there are as many buttons as candidates. *)
Theorem show_candidates_buttons (w : World) (text : pystr) (index : nat) :
  let w' := post (show_candidates w) in
  (WButton text index ∈ inner_candidates_frame (widgets (app w')) ↔
   ∃ l anime, current_candidates (app w) = Some l ∧
              l !! index = Some anime ∧ text = display_name anime) ∧
  (has_button index w' = true ↔
   ∃ l, current_candidates (app w) = Some l ∧ (index < length l)%nat).
Proof.
  intros w'. subst w'. rewrite show_candidates_frame. simpl.
  assert (Hin : ∀ l : list Candidate,
            WButton text index ∈ imap (λ idx anime, WButton (display_name anime) idx) l ↔
            ∃ anime, l !! index = Some anime ∧ text = display_name anime).
  { intros l. rewrite elem_of_lookup_imap. split.
    - intros (i & anime & [= -> ->] & Hl). by exists anime.
    - intros (anime & Hl & ->). by exists index, anime. }
  assert (Hhas : ∀ (l : list Candidate) k,
            existsb (λ x, match x with
                          | WButton _ i => (i =? index)%nat
                          | _ => false
                          end)
              (imap (λ idx anime, WButton (display_name anime) (k + idx)) l) = true ↔
            (k ≤ index < k + length l)%nat).
  { intros l. induction l as [|c l IH]; intros k; simpl.
    - split; [done | lia].
    - rewrite orb_true_iff, Nat.add_0_r, Nat.eqb_eq.
      rewrite (imap_ext _ (λ idx anime, WButton (display_name anime) (S k + idx)))
        by (intros; simpl; f_equal; lia).
      rewrite IH. lia. }
  split.
  - destruct (current_candidates (app w)) as [[|c l]|]; simpl.
    + split; [intros Hx; by apply list_elem_of_singleton in Hx|].
      by intros (l & anime & [= <-] & ? & _).
    + rewrite elem_of_cons, (Hin (c :: l)). split.
      * intros [?|(anime & ? & ?)]; [done|]. by exists (c :: l), anime.
      * intros (l' & anime & [= <-] & ? & ?). right. by exists anime.
    + split; [intros Hx; by apply list_elem_of_singleton in Hx|].
      by intros (l & anime & ? & _).
  - unfold has_button. simpl.
    destruct (current_candidates (app w)) as [[|c l]|]; simpl.
    + split; [done|]. intros (l & [= <-] & Hlt). simpl in Hlt. lia.
    + pose proof (Hhas (c :: l) 0%nat) as H0. simpl in H0. rewrite H0. split.
      * intros ?. exists (c :: l). split; [done|]. simpl. lia.
      * intros (l' & [= <-] & Hlt). simpl in Hlt. lia.
    + split; [done|]. by intros (l & ? & _).
Qed.

(** X12. The text of a button and the new name agree: when the candidates
    on screen are those found for the current folder, pressing the button
    with the text [text] makes [get_new_name] return [text] sanitized, and,
    unless that is empty, it is the name [candidate_selected] goes on to
    rename the folder to. *)
Theorem clicked_button_names_folder (w : World) (folder_name text : pystr)
    (index : nat) :
  let w' := post (show_candidates w) in
  let w1 := selection_stored folder_name index w' in
  folders (app w) !! current_index (app w) = Some folder_name →
  folder_candidates (app w) !! folder_name = Some (current_candidates (app w)) →
  WButton text index ∈ inner_candidates_frame (widgets (app w')) →
  get_new_name folder_name w1 =
    Outcome (Ret (Some (sanitize_filename text))) w1
      [EvPrint (MsgWillBeRenamed folder_name (sanitize_filename text))] ∧
  (sanitize_filename text ≠ [] →
   let o' := rename_folder folder_name (sanitize_filename text) w1 in
   candidate_selected index w' =
     Outcome (res o') (post o')
       (EvPrint (MsgWillBeRenamed folder_name (sanitize_filename text)) :: evs o')).
Proof.
  intros w' w1 Hf Hc Hb. subst w1 w'. revert Hb.
  rewrite show_candidates_frame. simpl. intros Hb.
  assert (Hla : ∃ l anime, current_candidates (app w) = Some l ∧
                           l !! index = Some anime ∧ text = display_name anime).
  { destruct (current_candidates (app w)) as [[|c l]|].
    - by apply list_elem_of_singleton in Hb.
    - simpl in Hb. apply elem_of_cons in Hb as [?|Hb]; [done|].
      change (WButton text index ∈
              imap (λ idx anime, WButton (display_name anime) idx) (c :: l)) in Hb.
      apply elem_of_lookup_imap in Hb as (i & anime & [= -> ->] & Hl).
      by exists (c :: l), anime.
    - by apply list_elem_of_singleton in Hb. }
  destruct Hla as (l & anime & Hcur & Hl & ->).
  match goal with
  | |- get_new_name _ ?w1 = _ ∧ _ =>
      assert (Hg : get_new_name folder_name w1 =
                Outcome (Ret (Some (sanitize_filename (display_name anime)))) w1
                  [EvPrint (MsgWillBeRenamed folder_name
                              (sanitize_filename (display_name anime)))])
  end.
  { apply (get_new_name_selected _ _ index l anime); simpl.
    - by rewrite lookup_insert_eq.
    - by rewrite Hc, Hcur.
    - done. }
  split; [done|]. intros Hne. cbn zeta.
  set (w' := upd_app (upd_widgets (set_inner_candidates_frame
                (frame_for (current_candidates (app w))))) w) in *.
  assert (Hf' : folders (app w') !! current_index (app w') = Some folder_name)
    by exact Hf.
  by rewrite (candidate_selected_named w' index folder_name _ _ Hf' Hg Hne).
Qed.

(** What the listing recorded stays through every step but the choice of
    a directory. *)
Lemma act_kept (a : action) (w w' : World) e :
  is_walk a → act a w = Some (w', e) →
  directory (app w') = directory (app w) ∧
  folders (app w') = folders (app w) ∧
  folder_paths (app w') = folder_paths (app w).
Proof.
  intros Hw Hact.
  assert (Hcb : ∀ (m : M World unit) (w0 : World),
            app w0 = app w → main_step w0 (m w0) →
            Some (callback m w0) = Some (w', e) →
            directory (app w') = directory (app w) ∧
            folders (app w') = folders (app w) ∧
            folder_paths (app w') = folder_paths (app w)).
  { intros m w0 Ha ((Hd & Hf & Hp & _) & _) H. apply (inj Some) in H.
    assert (Hw' : w' = post (m w0)) by (by injection H).
    by rewrite Hw', Hd, Hf, Hp, Ha. }
  destruct a as [folder|b|text| |index|k net|]; simpl in Hact.
  - by destruct Hw.
  - by injection Hact as <- <-.
  - by injection Hact as <- <-.
  - destruct (skip_btn _); [|done].
    by apply (Hcb skip_folder w eq_refl (skip_folder_step w)).
  - destruct (has_button _ _); [|done].
    by apply (Hcb (candidate_selected index) w eq_refl
                (candidate_selected_step w index)).
  - apply act_worker in Hact as (folder_name & _ & _ & Hact).
    unfold callback in Hact.
    destruct (fetch_candidates_step folder_name net
                (set_threads (delete k (threads w)) w))
      as ((Hd & Hf & Hp & _) & _).
    assert (Hw' : w' = post (fetch_candidates folder_name net
                               (set_threads (delete k (threads w)) w)))
      by (by injection Hact).
    by rewrite Hw', Hd, Hf, Hp.
  - destruct (after_queue w) as [|n]; [done|].
    by apply (Hcb show_candidates (set_after_queue n w) eq_refl
                (show_candidates_step (set_after_queue n w))).
Qed.

(** X13. Renaming a folder does not reach the listing: through a walk,
    whatever is renamed on the disk, [directory], [folders] and
    [folder_paths] stay as [load_folders] left them, so a folder that was
    renamed is still listed under its old name and its old path. *)
Theorem walk_keeps_listing (acts : list action) (w w' : World) e :
  run acts w = Some (w', e) →
  Forall is_walk acts →
  directory (app w') = directory (app w) ∧
  folders (app w') = folders (app w) ∧
  folder_paths (app w') = folder_paths (app w).
Proof.
  revert w w' e. induction acts as [|a rest IH]; intros w w' e Hrun Hwalk.
  - by injection Hrun as <- <-.
  - apply run_cons_inv in Hrun as (w1 & e1 & e2 & Hact & Hrest & ->).
    apply Forall_cons in Hwalk as [Ha Hwalk].
    destruct (act_kept a w w1 e1 Ha Hact) as (Hd & Hf & Hp).
    destruct (IH _ _ _ Hrest Hwalk) as (Hd' & Hf' & Hp').
    by rewrite Hd', Hf', Hp', Hd, Hf, Hp.
Qed.

Lemma candidate_selected_stays (w : World) (index : nat) :
  current_index (app (post (candidate_selected index w))) =
    current_index (app w) →
  post (candidate_selected index w) = w ∨
  ∃ f, folders (app w) !! current_index (app w) = Some f ∧
       post (candidate_selected index w) = selection_stored f index w.
Proof.
  destruct (folders (app w) !! current_index (app w)) as [f|] eqn:Hf;
    [|left; by rewrite candidate_selected_done].
  intros Hi. right. exists f. split; [done|]. revert Hi.
  set (w1 := selection_stored f index w).
  destruct (get_new_name_results f w1) as (r & ev & Hg & _).
  destruct r as [[[|c s]|]|x].
  - by rewrite (candidate_selected_unnamed w index f ev Hf (or_intror Hg)).
  - rewrite (candidate_selected_named w index f ev (c :: s) Hf Hg ltac:(done)).
    cbn zeta. cbn [post]. fold w1.
    destruct (folder_paths (app w1) !! f) as [old_path|] eqn:Hp;
      [|by rewrite (rename_folder_unlisted w1 f (c :: s) Hp)].
    destruct (os_path_exists (disk w1) (os_path_join (directory (app w1)) (c :: s)))
      eqn:Hex; [by rewrite (rename_folder_conflict w1 f (c :: s) old_path Hp Hex)|].
    destruct (os_rename (disk w1) old_path
                (os_path_join (directory (app w1)) (c :: s))) as [d'|] eqn:Hrn;
      [|by rewrite (rename_folder_raises w1 f (c :: s) old_path Hp Hex Hrn)].
    rewrite (rename_folder_renames w1 f (c :: s) old_path d' Hp Hex Hrn).
    cbn zeta. cbn [post].
    destruct (next_folder_summary (set_disk d' w1)) as (_ & [g Hg'] & _).
    rewrite Hg'. subst w1. destruct w as [[] ? ? ?]. simpl. lia.
  - by rewrite (candidate_selected_unnamed w index f ev Hf (or_introl Hg)).
  - by rewrite (candidate_selected_raises w index f ev x Hf Hg).
Qed.

(** [candidate_selected] from the call of [get_new_name] on. *)
Lemma candidate_selected_body (w : World) (index : nat) (f : pystr) :
  folders (app w) !! current_index (app w) = Some f →
  candidate_selected index w =
    (new_name ← get_new_name f;
     if negb (from_option str_truthy false new_name) then
       emit (EvDialog (CouldNotDetermine f))
     else rename_folder f (default [] new_name))
      (selection_stored f index w).
Proof.
  intros Hf. unfold candidate_selected, self, self_set. step_m.
  unfold subscript. rewrite Hf. step_m. unfold selection_stored.
  destruct (get_new_name f _) as [[a|x] σ1 e1]; [|done].
  match goal with
  | |- context [?m σ1] => by destruct (m σ1)
  end.
Qed.

(** X14. A pick that does not move on to the next folder (no name could be
    made, the new name exists, or the rename raised and left the disk as it
    was) leaves nothing behind that the next pick would see: picking again
    does what it would have done without the first pick. *)
Theorem failed_pick_leaves_no_trace (w : World) (i j : nat) :
  let w' := post (candidate_selected i w) in
  current_index (app w') = current_index (app w) →
  candidate_selected j w' = candidate_selected j w.
Proof.
  intros w' Hi. subst w'.
  destruct (candidate_selected_stays w i Hi) as [-> | (f & Hf & ->)]; [done|].
  assert (Hf' : folders (app (selection_stored f i w)) !!
                current_index (app (selection_stored f i w)) = Some f)
    by exact Hf.
  rewrite (candidate_selected_body _ j f Hf'),
          (candidate_selected_body w j f Hf).
  f_equal. unfold selection_stored, upd_app.
  destruct w as [[] ? ? ?]. simpl. by rewrite insert_insert_eq.
Qed.

End RunFacts.

Section FurtherWitnesses.
Import DirTree Sample.

Lemma search_anime_returns_media_witness :
  evs (search_anime (py "Beta") answer_beta start) = [EvPost (py "Beta")].
Proof.
  destruct (search_anime_returns_media (py "Beta") answer_beta start
              (JArr [media 3 (JStr (py "Beta")) "Beeta" (JInt 2001)]))
    as (fields & d & p & _ & _ & _ & _ & H).
  - by vm_compute.
  - done.
  - exact H.
Defined.

Lemma requests_match_threads_witness :
  let acts := [SelectDirectory (py "/lib"); WorkerRuns 0 answer_alpha] in
  (length (threads (after acts)) + length (requests_of (effects acts)) =
   length (threads start) + length (threads_of (effects acts)))%nat.
Proof.
  intros acts.
  apply (requests_match_threads acts start (after acts) (effects acts)).
  by vm_compute.
Defined.

Lemma folder_paths_follow_folders_witness :
  let acts := [SelectDirectory (py "/lib"); ClickSkip] in
  listed (app (after acts)).
Proof.
  intros acts.
  apply (folder_paths_follow_folders (os := os) lib acts (after acts)
           (effects acts)).
  by vm_compute.
Defined.

Lemma skip_button_follows_index_witness : settled (app shown).
Proof.
  apply (skip_button_follows_index (os := os) lib [SelectDirectory (py "/lib")] shown
           (effects [SelectDirectory (py "/lib")])).
  - by vm_compute.
  - by vm_compute.
Defined.

Lemma directory_without_folders_witness :
  ∃ w1, act (SelectDirectory (py "/lib/Beta (2001)")) shown =
          Some (w1, [EvDialog NoFolders]) ∧
        act ClickSkip w1 = Some (w1, [EvTraceback IndexError]).
Proof.
  pose proof (directory_without_folders (py "/lib/Beta (2001)") shown) as H.
  destruct H as (_ & H2 & H3 & _); [done|].
  eexists. split.
  - apply (H2 []); [by vm_compute | by intros item ?%elem_of_nil].
  - apply H3. by vm_compute.
Defined.

Lemma override_decides_every_query_witness :
  let w := upd_app (upd_widgets (set_override_search_entry (py " Gamma "))) start in
  let acts := [SelectDirectory (py "/lib"); WorkerRuns 0 answer_alpha] in
  Forall (eq (py "Gamma")) (requests_of (effects_from w acts)).
Proof.
  intros w acts.
  destruct (override_decides_every_query acts w
              (from_option fst w (run acts w)) (effects_from w acts))
    as (_ & _ & H).
  - by vm_compute.
  - repeat constructor; by intros [].
  - apply Forall_forall. intros q Hq. symmetry. apply H; [by vm_compute | done].
Defined.

Lemma clicked_button_names_folder_witness :
  let w := after [SelectDirectory (py "/lib"); WorkerRuns 0 answer_alpha] in
  res (get_new_name alpha (selection_stored alpha 0 (post (show_candidates w)))) =
    Ret (Some (py "Alpha II (2005)")).
Proof.
  intros w.
  destruct (clicked_button_names_folder w alpha (py "Alpha II (2005)") 0)
    as [H _].
  - by vm_compute.
  - by vm_compute.
  - apply (list_elem_of_lookup_2 _ 1). by vm_compute.
  - by rewrite H.
Defined.

Lemma walk_keeps_listing_witness :
  let acts := [WorkerRuns 0 answer_alpha; AfterIdle; ClickCandidate 0] in
  renames_of (effects_from shown acts) ≠ [] ∧
  folders (app (from_option fst shown (run acts shown))) = folders (app shown).
Proof.
  intros acts. split; [by vm_compute|].
  apply (walk_keeps_listing acts shown (from_option fst shown (run acts shown))
           (effects_from shown acts)).
  - by vm_compute.
  - repeat constructor.
Defined.

Lemma failed_pick_leaves_no_trace_witness :
  candidate_selected 0 (post (candidate_selected 7 alpha_listed)) =
  candidate_selected 0 alpha_listed.
Proof.
  apply (failed_pick_leaves_no_trace alpha_listed 7 0). by vm_compute.
Defined.

End FurtherWitnesses.
